(** * git-buddy / ats-tailor-extension2.0: the document tailoring pipeline

    A shallow embedding of [turbo-pipeline.js] (keyword cache, keyword
    extraction, tailoring fallback) and of the text part of
    [pdf-ats-turbo.js] (section parser, experience injection, skills
    consolidation), with the properties the specification states about
    them.

    JavaScript strings are sequences of UTF-16 code units; they are
    modelled as lists of code units ([N]).  The built-in string methods the
    code calls are the functions of module [JS]. *)

From Stdlib Require Import List NArith Arith Bool Lia Permutation Sorted.
From Stdlib Require Ascii String DecimalString DecimalN.
Import ListNotations String.StringSyntax.
Delimit Scope string_scope with string.

(* ================================================================== *)
(** ** JavaScript built-ins used by the two files                      *)
(* ================================================================== *)

Module JS.

Definition jsstring := list N.

(** A literal of the source, given as its characters (all literals of
    the two files but the bullet glyph U+2022 are ASCII). *)
Definition str (s : String.string) : jsstring :=
  map Ascii.N_of_ascii (String.list_ascii_of_string s).
Arguments str s%_string.

Definition jseq_dec : forall a b : jsstring, {a = b} + {a <> b} :=
  list_eq_dec N.eq_dec.

Definition jseqb (a b : jsstring) : bool :=
  if jseq_dec a b then true else false.

(** LineTerminator of ECMAScript: LF, CR, LS, PS. *)
Definition isLineTerminator (c : N) : bool :=
  ((c =? 10) || (c =? 13) || (c =? 8232) || (c =? 8233))%N.

(** The class [\s] (and the set removed by [trim]): WhiteSpace and
    LineTerminator. *)
Definition isSpace (c : N) : bool :=
  ((c =? 9) || (c =? 10) || (c =? 11) || (c =? 12) || (c =? 13) ||
   (c =? 32) || (c =? 160) || (c =? 5760) ||
   ((8192 <=? c) && (c <=? 8202)) ||
   (c =? 8232) || (c =? 8233) || (c =? 8239) || (c =? 8287) ||
   (c =? 12288) || (c =? 65279))%N.

(** [toLowerCase] and [toUpperCase] on the basic Latin letters; the
    other code units are left as they are.  On a text of ASCII code
    units ([isAscii]) these are the mappings of the language; outside
    ASCII the language also maps other letters, so a statement that
    depends on the case mapping of its input assumes the input to be
    ASCII. *)
Definition toLowerUnit (c : N) : N :=
  (if (65 <=? c) && (c <=? 90) then c + 32 else c)%N.

Definition toUpperUnit (c : N) : N :=
  (if (97 <=? c) && (c <=? 122) then c - 32 else c)%N.

Definition toLowerCase (s : jsstring) : jsstring := map toLowerUnit s.

(** Every code unit is below 128. *)
Definition isAscii (s : jsstring) : bool := forallb (fun c => (c <? 128)%N) s.

Fixpoint startsWith (s p : jsstring) : bool :=
  match p, s with
  | [], _ => true
  | _ :: _, [] => false
  | b :: p', a :: s' => (a =? b)%N && startsWith s' p'
  end.

Definition endsWith (s p : jsstring) : bool :=
  startsWith (rev s) (rev p).

(** [s.includes(t)]: [t] occurs in [s] at some position. *)
Fixpoint includes (s t : jsstring) : bool :=
  startsWith s t ||
  match s with
  | [] => false
  | _ :: s' => includes s' t
  end.

(** [s.indexOf(c, from)] for a one-character needle: [None] is [-1]. *)
Fixpoint indexOfAux (c : N) (s : jsstring) (i : nat) : option nat :=
  match s with
  | [] => None
  | a :: s' => if (a =? c)%N then Some i else indexOfAux c s' (S i)
  end.

Definition indexOf (s : jsstring) (c : N) (from : nat) : option nat :=
  indexOfAux c (skipn from s) from.

Fixpoint dropWhile (p : N -> bool) (s : jsstring) : jsstring :=
  match s with
  | [] => []
  | a :: s' => if p a then dropWhile p s' else s
  end.

Definition trimStart (s : jsstring) : jsstring := dropWhile isSpace s.
Definition trimEnd (s : jsstring) : jsstring := rev (dropWhile isSpace (rev s)).
Definition trim (s : jsstring) : jsstring := trimEnd (trimStart s).

(** [s.split(sep)] for a separator matching exactly one code unit
    ([split('\n')], [split(/[, \n]/)]): never empty, [""] gives [[""]]. *)
Fixpoint splitOn (p : N -> bool) (s : jsstring) : list jsstring :=
  match s with
  | [] => [[]]
  | a :: s' =>
      if p a then [] :: splitOn p s'
      else match splitOn p s' with
           | [] => [[a]]
           | w :: ws => (a :: w) :: ws
           end
  end.

(** [s.split(/\s+/)]: a run of white space is one separator; leading or
    trailing white space leaves an empty first or last piece. *)
Fixpoint splitRuns (p : N -> bool) (cur : jsstring) (inSep : bool)
         (s : jsstring) : list jsstring :=
  match s with
  | [] => [rev cur]
  | a :: s' =>
      if p a then
        if inSep then splitRuns p [] true s'
        else rev cur :: splitRuns p [] true s'
      else splitRuns p (a :: cur) false s'
  end.

Definition splitWhitespace (s : jsstring) : list jsstring :=
  splitRuns isSpace [] false s.

(** [arr.join(sep)]. *)
Fixpoint join (sep : jsstring) (l : list jsstring) : jsstring :=
  match l with
  | [] => []
  | [x] => x
  | x :: l' => x ++ sep ++ join sep l'
  end.

(** [arr.slice(a, b)] and [arr.slice(a)] (also on strings) for
    non-negative bounds. *)
Definition slice {A} (l : list A) (a b : nat) : list A :=
  firstn (b - a) (skipn a l).
Definition sliceFrom {A} (l : list A) (a : nat) : list A := skipn a l.

(** Number to string, for non-negative integers. *)
Definition numToString (n : N) : jsstring :=
  str (DecimalString.NilEmpty.string_of_uint (N.to_uint n)).

(** A [Set] of strings keeps its elements in insertion order:
    [set.has(x)] and [set.add(x)]. *)
Definition has (l : list jsstring) (x : jsstring) : bool :=
  existsb (jseqb x) l.

Definition add (l : list jsstring) (x : jsstring) : list jsstring :=
  if has l x then l else l ++ [x].

End JS.
Import JS.

(* ================================================================== *)
(** ** Regular expressions                                             *)
(* ================================================================== *)

(** The fragment of ECMAScript regular expressions the two files use,
    with the backtracking order of the language: alternatives left to
    right, [*] greedy, [*?] lazy, a lookahead matched once.  Every
    regular expression modelled here carries the flag [i]; a letter of a
    literal matches its two ASCII cases and nothing else (without the
    flag [u] no other code unit canonicalises to an ASCII letter). *)
Module Regex.

Inductive regex : Type :=
| Eps                          (* the empty pattern *)
| Lit (s : jsstring)           (* literal text *)
| Cls (p : N -> bool)          (* one code unit of a class *)
| Star (p : N -> bool)         (* [..]*  *)
| LazyStar (p : N -> bool)     (* [..]*? *)
| Seq (a b : regex)
| Alt (a b : regex)
| Bol                          (* ^ under flag m *)
| Eol                          (* $ under flag m *)
| Eoi                          (* $ without flag m *)
| Group (a : regex)            (* the capture group *)
| Look (a : regex).            (* (?= .. ) *)

Declare Scope regex_scope.
Delimit Scope regex_scope with re.
Bind Scope regex_scope with regex.
Infix ";;" := Seq (at level 61, right associativity) : regex_scope.
Infix "<|>" := Alt (at level 62, right associativity) : regex_scope.

(** The literal [p] read at the head of [s] ignoring case: the code
    units read (reversed) and the rest. *)
Fixpoint litAt (p s acc : jsstring) : option (jsstring * jsstring) :=
  match p, s with
  | [], _ => Some (acc, s)
  | _ :: _, [] => None
  | b :: p', a :: s' =>
      if (toUpperUnit a =? toUpperUnit b)%N then litAt p' s' (a :: acc)
      else None
  end.

(** A position is the text before it (reversed) and the text after it;
    [cap] is the capture so far; [k] is the rest of the match. *)
Definition cont : Type :=
  jsstring -> jsstring -> option jsstring -> option (option jsstring).

Definition atLineStart (pre : jsstring) : bool :=
  match pre with [] => true | c :: _ => isLineTerminator c end.

Definition atLineEnd (suf : jsstring) : bool :=
  match suf with [] => true | c :: _ => isLineTerminator c end.

Fixpoint run (r : regex) (pre suf : jsstring) (cap : option jsstring)
         (k : cont) {struct r} : option (option jsstring) :=
  match r with
  | Eps => k pre suf cap
  | Lit p =>
      match litAt p suf pre with
      | Some (pre', suf') => k pre' suf' cap
      | None => None
      end
  | Cls p =>
      match suf with
      | c :: t => if p c then k (c :: pre) t cap else None
      | [] => None
      end
  | Star p =>
      (fix star (pre suf : jsstring) {struct suf} :=
         match suf with
         | c :: t =>
             if p c then
               match star (c :: pre) t with
               | Some x => Some x
               | None => k pre suf cap
               end
             else k pre suf cap
         | [] => k pre suf cap
         end) pre suf
  | LazyStar p =>
      (fix lazy (pre suf : jsstring) {struct suf} :=
         match k pre suf cap with
         | Some x => Some x
         | None =>
             match suf with
             | c :: t => if p c then lazy (c :: pre) t else None
             | [] => None
             end
         end) pre suf
  | Seq a b => run a pre suf cap (fun pre' suf' cap' => run b pre' suf' cap' k)
  | Alt a b =>
      match run a pre suf cap k with
      | Some x => Some x
      | None => run b pre suf cap k
      end
  | Bol => if atLineStart pre then k pre suf cap else None
  | Eol => if atLineEnd suf then k pre suf cap else None
  | Eoi => match suf with [] => k pre suf cap | _ :: _ => None end
  | Group a =>
      run a pre suf cap
          (fun pre' suf' _ =>
             k pre' suf'
               (Some (rev (firstn (length pre' - length pre) pre'))))
  | Look a =>
      match run a pre suf cap (fun _ _ c => Some c) with
      | Some c => k pre suf c
      | None => None
      end
  end.

Definition accept : cont := fun _ _ c => Some c.

(** [re.exec(s)] and [s.match(re)] without flag g: the leftmost start
    with a match; the result is its index and the capture. *)
Fixpoint execFrom (r : regex) (pre suf : jsstring)
  : option (nat * option jsstring) :=
  match run r pre suf None accept with
  | Some c => Some (length pre, c)
  | None =>
      match suf with
      | [] => None
      | a :: t => execFrom r (a :: pre) t
      end
  end.

Definition exec (r : regex) (s : jsstring) : option (nat * option jsstring) :=
  execFrom r [] s.

End Regex.
Import Regex.

(* ================================================================== *)
(** ** [Map]: a map that keeps its keys in insertion order             *)
(* ================================================================== *)

Module JSMap.
Section JSMap.
Variable V : Type.

Definition t := list (jsstring * V).

Fixpoint get (m : t) (k : jsstring) : option V :=
  match m with
  | [] => None
  | (k', v) :: m' => if jseq_dec k k' then Some v else get m' k
  end.

(** [m.set(k, v)]: an existing key keeps its place, a new key goes
    last. *)
Fixpoint set (m : t) (k : jsstring) (v : V) : t :=
  match m with
  | [] => [(k, v)]
  | (k', v') :: m' =>
      if jseq_dec k k' then (k', v) :: m' else (k', v') :: set m' k v
  end.

Fixpoint delete (m : t) (k : jsstring) : t :=
  match m with
  | [] => []
  | (k', v') :: m' =>
      if jseq_dec k k' then m' else (k', v') :: delete m' k
  end.

Definition keys (m : t) : list jsstring := map fst m.
Definition size (m : t) : nat := length m.
End JSMap.
Arguments get {V} m k.
Arguments set {V} m k v.
Arguments delete {V} m k.
Arguments keys {V} m.
Arguments size {V} m.
End JSMap.

(* ================================================================== *)
(** ** turbo-pipeline.js                                               *)
(* ================================================================== *)

Module TurboPipeline.

Record KeywordSet : Type := mkKeywordSet {
  all : list jsstring;
  highPriority : list jsstring;
  mediumPriority : list jsstring;
  lowPriority : list jsstring;
  total : nat
}.

Definition emptyKeywordSet : KeywordSet := mkKeywordSet [] [] [] [] 0.

Definition MAX_CACHE_SIZE : nat := 50.

(** [text.charCodeAt(0)] turned into text: [NaN] on the empty string. *)
Definition charCodeAt0 (text : jsstring) : jsstring :=
  match text with
  | [] => str "NaN"
  | c :: _ => numToString c
  end.

Definition getCacheKey (text : jsstring) : jsstring :=
  numToString (N.of_nat (length (slice text 0 500))) ++ str "_" ++
  numToString (N.of_nat (length text)) ++ str "_" ++ charCodeAt0 text.

(** [Math.ceil(n * 0.35)] for a length [n].  The double nearest to 0.35
    lies below 0.35 by less than 3e-17, so the product (rounded to
    nearest) is never above [7n/20] and misses it by far less than
    [1/20] for every length an array can have: its ceiling is the
    ceiling of the exact [7n/20]. *)
Definition ceil35 (n : nat) : nat := (7 * n + 19) / 20.

Definition stopWords : list jsstring := map str [
  "a";"an";"the";"and";"or";"but";"in";"on";"at";"to";"for";"of";"with";"by";"from";
  "as";"is";"was";"are";"were";"been";"be";"have";"has";"had";"do";"does";"did";
  "will";"would";"could";"should";"may";"might";"must";"can";"need";"this";"that";
  "you";"your";"we";"our";"they";"their";"work";"working";"job";"position";"role";
  "team";"company";"opportunity";"looking";"seeking";"required";"requirements";
  "preferred";"ability";"able";"experience";"years";"year";"including";"new"
]%string.

Definition techBoost : list jsstring := map str [
  "python";"java";"javascript";"typescript";"sql";"aws";"azure";"gcp";"kubernetes";
  "docker";"terraform";"react";"angular";"vue";"node";"spark";"kafka";"airflow";
  "tableau";"snowflake";"machine learning";"deep learning";"ai";"ml";"nlp";
  "agile";"scrum";"ci/cd";"devops";"api";"rest";"graphql";"microservices"
]%string.

(** The class [[a-z0-9\s\-\/]]. *)
Definition keptChar (c : N) : bool :=
  (((97 <=? c) && (c <=? 122)) || ((48 <=? c) && (c <=? 57)) ||
   isSpace c || (c =? 45) || (c =? 47))%N.

(** [.replace(/[^a-z0-9\s\-\/]/g, ' ')]. *)
Definition stripOther (s : jsstring) : jsstring :=
  map (fun c => if keptChar c then c else 32%N) s.

Definition tokenize (text : jsstring) : list jsstring :=
  filter (fun w => (3 <=? length w) && negb (has stopWords w))
         (splitWhitespace (stripOther (toLowerCase text))).

(** The body of [words.forEach]: the stored value is read back as the
    count of the next occurrence.  The code computes in doubles, which
    are these integers as long as the values stay below [2^53]; a
    statement about the order of the values assumes that bound. *)
Definition countWord (freq : JSMap.t nat) (word : jsstring) : JSMap.t nat :=
  let count := match JSMap.get freq word with Some n => n | None => 0 end + 1 in
  let boost := if has techBoost word then 3 else 1 in
  JSMap.set freq word (count * boost).

Definition frequencies (words : list jsstring) : JSMap.t nat :=
  fold_left countWord words [].

(** [.sort((a, b) => b[1] - a[1])]: the sort of the language is stable,
    so its result is the one of a stable insertion sort, descending by
    value. *)
Fixpoint insertDesc (x : jsstring * nat) (l : list (jsstring * nat))
  : list (jsstring * nat) :=
  match l with
  | [] => [x]
  | y :: l' => if snd x <? snd y then y :: insertDesc x l' else x :: l
  end.

Fixpoint sortDesc (l : list (jsstring * nat)) : list (jsstring * nat) :=
  match l with
  | [] => []
  | x :: l' => insertDesc x (sortDesc l')
  end.

Definition ultraFastExtraction (text : jsstring) (maxKeywords : nat)
  : KeywordSet :=
  let words := tokenize text in
  let freq := frequencies words in
  let sorted := slice (map fst (sortDesc freq)) 0 maxKeywords in
  let highCount := ceil35 (length sorted) in
  let mediumCount := ceil35 (length sorted) in
  {| all := sorted;
     highPriority := slice sorted 0 highCount;
     mediumPriority := slice sorted highCount (highCount + mediumCount);
     lowPriority := sliceFrom sorted (highCount + mediumCount);
     total := length sorted |}.

(** The optional collaborators found on [global]: [ReliableExtractor]
    is asked first, then [KeywordExtractor] (of its result only the
    field [all] is read). *)
Inductive Extractors : Type :=
| Reliable (extractReliableKeywords : jsstring -> nat -> KeywordSet)
| Generic (extractKeywords : jsstring -> nat -> list jsstring)
| NoExtractor.

(** The branch that wraps the result of [KeywordExtractor]. *)
Definition wrapGeneric (extractedAll : list jsstring) (maxKeywords : nat)
  : KeywordSet :=
  let highCount := Nat.min 12 (ceil35 (length extractedAll)) in
  let mediumCount := Nat.min 10 (ceil35 (length extractedAll)) in
  {| all := slice extractedAll 0 maxKeywords;
     highPriority := slice extractedAll 0 highCount;
     mediumPriority := slice extractedAll highCount (highCount + mediumCount);
     lowPriority := sliceFrom extractedAll (highCount + mediumCount);
     total := length extractedAll |}.

Definition extractUncached (env : Extractors) (jobDescription : jsstring)
           (maxKeywords : nat) : KeywordSet :=
  match env with
  | Reliable extractReliableKeywords =>
      extractReliableKeywords jobDescription maxKeywords
  | Generic extractKeywords =>
      wrapGeneric (extractKeywords jobDescription maxKeywords) maxKeywords
  | NoExtractor => ultraFastExtraction jobDescription maxKeywords
  end.

Definition Cache := JSMap.t KeywordSet.

(** The block [// Cache result]: when the cache is full the first key
    of its iteration order is deleted, then the result is stored. *)
Definition cacheResult (keywordCache : Cache) (cacheKey : jsstring)
           (result : KeywordSet) : Cache :=
  let evicted :=
    if MAX_CACHE_SIZE <=? JSMap.size keywordCache then
      match JSMap.keys keywordCache with
      | firstKey :: _ => JSMap.delete keywordCache firstKey
      | [] => keywordCache
      end
    else keywordCache in
  JSMap.set evicted cacheKey result.

(** [turboExtractKeywords]: the cache is threaded through the call; the
    field [timing] of the result (a clock reading) is left out. *)
Definition turboExtractKeywords (env : Extractors) (keywordCache : Cache)
           (jobDescription : jsstring) (maxKeywords : nat)
  : Cache * KeywordSet :=
  if length jobDescription <? 50 then (keywordCache, emptyKeywordSet)
  else
    let cacheKey := getCacheKey jobDescription in
    match JSMap.get keywordCache cacheKey with
    | Some cached => (keywordCache, cached)
    | None =>
        let result := extractUncached env jobDescription maxKeywords in
        (cacheResult keywordCache cacheKey result, result)
    end.

(** A sequence of calls on the same cache; the results are dropped. *)
Definition extractAll (env : Extractors) (keywordCache : Cache)
           (texts : list jsstring) (maxKeywords : nat) : Cache :=
  fold_left (fun c t => fst (turboExtractKeywords env c t maxKeywords))
            texts keywordCache.

(** *** The tailoring fallback *)

Record TailoringResult : Type := mkTailoringResult {
  tailoredCV : jsstring;
  injectedKeywords : list jsstring;
  statsTotal : nat
}.

Definition spaceOrColon (c : N) : bool := isSpace c || (c =? 58)%N.

(** [/^(SKILLS|TECHNICAL SKILLS|CORE SKILLS)[\s:]*$/im] *)
Definition skillsHeader : regex :=
  (Bol ;; Group (Lit (str "SKILLS") <|> Lit (str "TECHNICAL SKILLS")
                 <|> Lit (str "CORE SKILLS")) ;;
   Star spaceOrColon ;; Eol)%re.

(** [/^(EDUCATION|ACADEMIC)[\s:]*$/im] *)
Definition educationHeader : regex :=
  (Bol ;; Group (Lit (str "EDUCATION") <|> Lit (str "ACADEMIC")) ;;
   Star spaceOrColon ;; Eol)%re.

Definition missingKeywords (cvText : jsstring) (keywords : list jsstring)
  : list jsstring :=
  let cvLower := toLowerCase cvText in
  filter (fun kw => negb (includes cvLower (toLowerCase kw))) keywords.

Definition NL : jsstring := [10%N].

Definition fastTailorFallback (cvText : jsstring) (keywords : KeywordSet)
  : TailoringResult :=
  let missing := missingKeywords cvText (all keywords) in
  if length missing =? 0 then
    {| tailoredCV := cvText; injectedKeywords := []; statsTotal := 0 |}
  else
    let '(tailored, injected) :=
      match exec skillsHeader cvText with
      | Some (index, _) =>
          match indexOf cvText 10%N index with
          | Some insertPos =>
              let skillsToAdd := slice missing 0 15 in
              let skillsLine := NL ++ join (str ", ") skillsToAdd ++ NL in
              (slice cvText 0 (insertPos + 1) ++ skillsLine ++
               sliceFrom cvText (insertPos + 1), skillsToAdd)
          | None => (cvText, [])
          end
      | None =>
          let skillsToAdd := slice missing 0 15 in
          let newSkillsSection :=
            NL ++ str "SKILLS" ++ NL ++ join (str ", ") skillsToAdd ++ NL ++ NL in
          match exec educationHeader cvText with
          | Some (index, _) =>
              (slice cvText 0 index ++ newSkillsSection ++
               sliceFrom cvText index, skillsToAdd)
          | None => (cvText ++ newSkillsSection, skillsToAdd)
          end
      end in
    {| tailoredCV := tailored;
       injectedKeywords := injected;
       statsTotal := length injected |}.

End TurboPipeline.

(* ================================================================== *)
(** ** pdf-ats-turbo.js (the text part)                                *)
(* ================================================================== *)

Module PDFATSTurbo.

(** *** parseCVSections *)

Record ParsedResume : Type := mkParsedResume {
  summary : jsstring;
  experience : jsstring;
  skills : jsstring;
  education : jsstring;
  certifications : jsstring
}.

Definition ws : regex := Star isSpace.                  (* \s* *)
Definition colons : regex := Star TurboPipeline.spaceOrColon. (* [\s:]* *)
Definition nl : regex := Cls (fun c => (c =? 10)%N).     (* \n *)
Definition body : regex := Group (LazyStar (fun _ => true)). (* ([\s\S]*?) *)
Definition lit (s : String.string) : regex := Lit (str s).
Arguments lit s%_string.

Definition summaryPattern : regex :=
  ((lit "PROFESSIONAL" ;; ws ;; lit "SUMMARY" <|> lit "SUMMARY" <|>
    lit "PROFILE" <|> lit "OBJECTIVE") ;; colons ;; nl ;; body ;;
   Look (nl ;; (lit "EXPERIENCE" <|> lit "WORK" <|> lit "SKILLS" <|>
                lit "EDUCATION" <|> lit "CERTIFICATIONS" <|> Eoi)))%re.

Definition experiencePattern : regex :=
  ((lit "EXPERIENCE" <|> lit "WORK" ;; ws ;; lit "EXPERIENCE" <|>
    lit "EMPLOYMENT") ;; colons ;; nl ;; body ;;
   Look (nl ;; (lit "SKILLS" <|> lit "EDUCATION" <|>
                lit "CERTIFICATIONS" <|> Eoi)))%re.

Definition skillsPattern : regex :=
  ((lit "SKILLS" <|> lit "TECHNICAL" ;; ws ;; lit "SKILLS" <|>
    lit "CORE" ;; ws ;; lit "SKILLS") ;; colons ;; nl ;; body ;;
   Look (nl ;; (lit "EDUCATION" <|> lit "CERTIFICATIONS" <|> Eoi)))%re.

Definition educationPattern : regex :=
  ((lit "EDUCATION" <|> lit "ACADEMIC") ;; colons ;; nl ;; body ;;
   Look (nl ;; (lit "CERTIFICATIONS" <|> Eoi)))%re.

Definition certificationsPattern : regex :=
  ((lit "CERTIFICATION" ;; (lit "S" <|> Eps) <|>
    lit "LICENSE" ;; (lit "S" <|> Eps)) ;; colons ;; nl ;; body ;; Eoi)%re.

(** [sections[section] = match[1].trim()] when the pattern matches;
    the section stays [''] otherwise. *)
Definition sectionOf (pattern : regex) (cvText : jsstring) : jsstring :=
  match exec pattern cvText with
  | Some (_, Some captured) => trim captured
  | _ => []
  end.

(** On an empty text the code returns [{}]; its callers read an absent
    section as [''] or test it with [!], so the empty sections stand for
    it. *)
Definition parseCVSections (cvText : jsstring) : ParsedResume :=
  match cvText with
  | [] => mkParsedResume [] [] [] [] []
  | _ :: _ =>
      {| summary := sectionOf summaryPattern cvText;
         experience := sectionOf experiencePattern cvText;
         skills := sectionOf skillsPattern cvText;
         education := sectionOf educationPattern cvText;
         certifications := sectionOf certificationsPattern cvText |}
  end.

(** *** formatExperienceWithKeywords *)

Definition maxKeywordsPerBullet : nat := 2.

Definition isGlyph (c : N) : bool :=
  ((c =? 45) || (c =? 8226) || (c =? 42))%N.        (* - U+2022 * *)

Definition isBullet (trimmed : jsstring) : bool :=
  startsWith trimmed (str "-") || startsWith trimmed [8226%N] ||
  startsWith trimmed (str "*").

(** [trimmed.replace(/^[-U+2022*]\s*/, '')] *)
Definition stripGlyph (trimmed : jsstring) : jsstring :=
  match trimmed with
  | c :: t => if isGlyph c then dropWhile isSpace t else trimmed
  | [] => []
  end.

(** The variables the callback of [lines.map] shares between lines. *)
Record InjectState : Type := mkInjectState {
  keywordIndex : nat;
  usedKeywords : list jsstring
}.

(** The [while] loop; [rest] is [keywords] from [keywordIndex] on, so it
    becomes empty exactly when [keywordIndex < keywords.length] fails. *)
Fixpoint selectKeywords (bulletLower : jsstring) (limit : nat)
         (rest : list jsstring) (st : InjectState) (toAdd : list jsstring)
  : InjectState * list jsstring :=
  match rest with
  | [] => (st, toAdd)
  | kw :: rest' =>
      if length toAdd <? limit then
        let st' := mkInjectState (S (keywordIndex st)) in
        if negb (includes bulletLower (toLowerCase kw)) &&
           negb (has (usedKeywords st) (toLowerCase kw))
        then selectKeywords bulletLower limit rest'
               (st' (add (usedKeywords st) (toLowerCase kw))) (toAdd ++ [kw])
        else selectKeywords bulletLower limit rest'
               (st' (usedKeywords st)) toAdd
      else (st, toAdd)
  end.

Definition weave (bulletContent : jsstring) (toAdd : list jsstring)
  : jsstring :=
  if 0 <? length toAdd then
    if endsWith bulletContent (str ".") then
      removelast bulletContent ++ str ", leveraging " ++
      join (str " and ") toAdd ++ str "."
    else bulletContent ++ str " utilizing " ++ join (str " and ") toAdd
  else bulletContent.

(** One call of the callback of [lines.map]: the new state, the line
    returned, and the keywords it pushed on [toAdd]. *)
Definition formatLine (keywords : list jsstring) (st : InjectState)
           (line : jsstring) : InjectState * (jsstring * list jsstring) :=
  let keywordsLower := map toLowerCase keywords in
  let trimmed := trim line in
  if isBullet trimmed then
    let bulletContent := stripGlyph trimmed in
    let bulletLower := toLowerCase bulletContent in
    let existingCount :=
      length (filter (fun kw => includes bulletLower kw) keywordsLower) in
    if (existingCount <? maxKeywordsPerBullet) &&
       (keywordIndex st <? length keywords) then
      let '(st', toAdd) :=
        selectKeywords bulletLower (maxKeywordsPerBullet - existingCount)
                       (skipn (keywordIndex st) keywords) st [] in
      (st', (str "-  " ++ weave bulletContent toAdd, toAdd))
    else (st, (str "-  " ++ bulletContent, []))
  else (st, (line, [])).

Fixpoint formatLines (keywords : list jsstring) (st : InjectState)
         (lines : list jsstring) : list (jsstring * list jsstring) :=
  match lines with
  | [] => []
  | line :: lines' =>
      let '(st', out) := formatLine keywords st line in
      out :: formatLines keywords st' lines'
  end.

Definition isNewline (c : N) : bool := (c =? 10)%N.

Definition formattedLines (experienceText : jsstring)
           (keywords : list jsstring) : list (jsstring * list jsstring) :=
  formatLines keywords (mkInjectState 0 []) (splitOn isNewline experienceText).

Definition formatExperienceWithKeywords (experienceText : jsstring)
           (keywords : list jsstring) : jsstring :=
  match experienceText with
  | [] => []
  | _ :: _ => join TurboPipeline.NL (map fst (formattedLines experienceText keywords))
  end.

(** The keywords each line of the text gained, line by line. *)
Definition injections (experienceText : jsstring) (keywords : list jsstring)
  : list (list jsstring) :=
  match experienceText with
  | [] => []
  | _ :: _ => map snd (formattedLines experienceText keywords)
  end.

(** *** formatSkillsSection *)

Definition properNouns : list jsstring := map str [
  "Python"; "SQL"; "TensorFlow"; "Spark"; "XGBoost"; "LightGBM"; "AWS"; "Azure";
  "Google Cloud Platform"; "Kubernetes"; "Docker"; "Terraform"; "Apache Spark";
  "Airflow"; "Kafka"; "Snowflake"; "Jenkins"; "GitHub Actions"; "Agile"; "Scrum"
]%string.

(** [.replace(/[U+2022\-*]/g, ',')] *)
Definition glyphsToCommas (s : jsstring) : jsstring :=
  map (fun c => if isGlyph c then 44%N else c) s.

Definition isSkillSeparator (c : N) : bool :=
  ((c =? 44) || (c =? 32) || (c =? 10))%N.             (* [, \n] *)

Definition existingSkillsOf (skillsText : jsstring) : list jsstring :=
  let skillWords :=
    filter (fun s => (2 <=? length s) && (length s <=? 50))
           (map trim (splitOn isSkillSeparator (glyphsToCommas skillsText))) in
  fold_left add skillWords [].

(** The spelling a missing keyword is added in.  ([proper || lower]:
    every entry of the table is a non-empty string.) *)
Definition casing (kw : jsstring) : jsstring :=
  let kwLower := toLowerCase kw in
  match find (fun p => jseqb (toLowerCase p) kwLower) properNouns with
  | Some proper => proper
  | None => kwLower
  end.

(** The body of [keywords.forEach]. *)
Definition addKeyword (existingSkills : list jsstring) (kw : jsstring)
  : list jsstring :=
  let kwLower := toLowerCase kw in
  let hasIt := existsb (fun s => jseqb (toLowerCase s) kwLower) existingSkills in
  if hasIt then existingSkills else add existingSkills (casing kw).

Definition skillsSet (skillsText : jsstring) (keywords : list jsstring)
  : list jsstring :=
  fold_left addKeyword keywords (existingSkillsOf skillsText).

Definition formatSkillsSection (skillsText : jsstring)
           (keywords : list jsstring) : jsstring :=
  join (str ", ") (skillsSet skillsText keywords).

(** *** formatCVForATS, without the contact block (built from the
    candidate record alone) *)
Definition formatCVForATS (cvText : jsstring) (keywords : list jsstring)
  : ParsedResume :=
  let parsed := parseCVSections cvText in
  {| summary := summary parsed;
     experience := formatExperienceWithKeywords (experience parsed) keywords;
     skills := formatSkillsSection (skills parsed) keywords;
     education := education parsed;
     certifications := certifications parsed |}.

End PDFATSTurbo.

Import TurboPipeline PDFATSTurbo.

(* ================================================================== *)
(** ** The ranking in the words of the specification                   *)
(* ================================================================== *)

(** The specification of the internal extraction, to be compared with
    [ultraFastExtraction]: the plain number of occurrences of a token,
    multiplied once by 3 when the token is on the allowlist; tokens
    ranked by that number, descending, ties in order of first
    encounter; the ranking cut at [maxKeywords]. *)
Module Spec.

Definition boostedFrequency (words : list jsstring) (w : jsstring) : nat :=
  count_occ jseq_dec words w * (if has techBoost w then 3 else 1).

Definition distinctWords (words : list jsstring) : list jsstring :=
  fold_left add words [].

Definition rankedKeywords (text : jsstring) (maxKeywords : nat)
  : list jsstring :=
  let words := tokenize text in
  firstn maxKeywords
    (map fst (sortDesc (map (fun w => (w, boostedFrequency words w))
                            (distinctWords words)))).

End Spec.

(** The factor [boost] of [countWord], and what the table holds for [w]
    after [n] occurrences of [w], starting from the value [v] (0 when
    [w] was absent): each occurrence adds 1 and multiplies again. *)
Definition boostOf (w : jsstring) : nat := if has techBoost w then 3 else 1.

(** A string without any line terminator. *)
Definition noLineTerminator (s : jsstring) : bool :=
  forallb (fun c => negb (isLineTerminator c)) s.

Definition afterOccurrences (w : jsstring) (n v : nat) : nat :=
  Nat.iter n (fun v => (v + 1) * boostOf w) v.

(* ================================================================== *)
(** ** The paths of the tailoring fallback                             *)
(* ================================================================== *)

Section FallbackPaths.

Variable cvText : jsstring.
Variable keywords : KeywordSet.

Local Abbreviation missing := (missingKeywords cvText (all keywords)).
Local Abbreviation result := (fastTailorFallback cvText keywords).
Local Abbreviation skillsToAdd := (firstn 15 missing).

(** The five ways through [fastTailorFallback]. *)
Inductive FallbackPath : Prop :=
| NothingMissing :
    missing = [] ->
    tailoredCV result = cvText -> injectedKeywords result = [] ->
    FallbackPath
| HeaderOnLastLine index cap :
    missing <> [] ->
    exec skillsHeader cvText = Some (index, cap) ->
    indexOf cvText 10%N index = None ->
    tailoredCV result = cvText -> injectedKeywords result = [] ->
    FallbackPath
| UnderSkillsHeader index cap insertPos :
    missing <> [] ->
    exec skillsHeader cvText = Some (index, cap) ->
    indexOf cvText 10%N index = Some insertPos ->
    tailoredCV result =
      firstn (insertPos + 1) cvText ++
      (NL ++ join (str ", ") skillsToAdd ++ NL) ++
      skipn (insertPos + 1) cvText ->
    injectedKeywords result = skillsToAdd ->
    FallbackPath
| BeforeEducation index cap :
    missing <> [] ->
    exec skillsHeader cvText = None ->
    exec educationHeader cvText = Some (index, cap) ->
    tailoredCV result =
      firstn index cvText ++
      (NL ++ str "SKILLS" ++ NL ++ join (str ", ") skillsToAdd ++ NL ++ NL) ++
      skipn index cvText ->
    injectedKeywords result = skillsToAdd ->
    FallbackPath
| AtTheEnd :
    missing <> [] ->
    exec skillsHeader cvText = None ->
    exec educationHeader cvText = None ->
    tailoredCV result =
      cvText ++
      (NL ++ str "SKILLS" ++ NL ++ join (str ", ") skillsToAdd ++ NL ++ NL) ->
    injectedKeywords result = skillsToAdd ->
    FallbackPath.

End FallbackPaths.

(* ================================================================== *)
(** ** Inputs of the scenarios                                         *)
(* ================================================================== *)

Module Scenario.

(** A generic extractor that returns 35 keywords, [k1] to [k35]. *)
Definition thirtyFiveKeywords : list jsstring :=
  map (fun n => str "k" ++ numToString (N.of_nat n)) (seq 1 35).

(** A job text of 55 characters: an allowlisted token twice, another
    token seven times. *)
Definition sampleJobText : jsstring :=
  str "python python alpha alpha alpha alpha alpha alpha alpha".

(** 51 texts of lengths 50 to 100: 51 distinct fingerprints. *)
Definition fiftyOneTexts : list jsstring :=
  map (fun i => repeat 97%N (50 + i)) (seq 0 51).

(** Another job text of 55 characters that starts with [p]. *)
Definition collidingJobText : jsstring :=
  str "product roadmap owner for a payments platform in Berlin".

(** A keyword set that lists [l] (the fallback reads [all] only). *)
Definition keywordsOf (l : list jsstring) : KeywordSet :=
  mkKeywordSet l [] [] [] (length l).

(** A CV without any section header. *)
Definition plainCV : jsstring :=
  str "Jane Doe" ++ NL ++ str "Engineer, ten years of delivery".

(** A CV with an education header and no skills header. *)
Definition educationCV : jsstring :=
  str "Jane Doe" ++ NL ++ str "EDUCATION" ++ NL ++ str "BSc Physics".

(** The resume of the skills scenario. *)
Definition skillsCV : jsstring := str "SKILLS" ++ NL ++ str "Java, SQL".

(** The job text of the skills scenario: the four names, twice. *)
Definition skillsJobText : jsstring :=
  str "Python, AWS, Docker, Kubernetes, Python, AWS, Docker, Kubernetes".

Definition fourKeywords : list jsstring :=
  map str ["Python"; "AWS"; "Docker"; "Kubernetes"]%string.


(** A resume with four sections and three bullets. *)
Definition fullResume : jsstring :=
  str "SUMMARY" ++ NL ++ str "Data engineer." ++ NL ++
  str "EXPERIENCE" ++ NL ++ str "Acme | 2020" ++ NL ++
  str "- Built data pipelines." ++ NL ++ str "* Led a team" ++ NL ++
  str "- Tuned queries." ++ NL ++
  str "SKILLS" ++ NL ++ str "Java, SQL" ++ NL ++
  str "EDUCATION" ++ NL ++ str "BSc" ++ NL.

Definition threeKeywords : list jsstring :=
  map str ["Spark"; "Kafka"; "Python"]%string.

(** A job text of 52 characters that holds stop words only. *)
Definition stopWordsOnly : jsstring :=
  str "we are looking for you and your team to work with us".

(** An experience section: a heading line and three bullets, the last
    one with the glyph U+2022. *)
Definition sampleExperience : jsstring :=
  str "Acme | 2020" ++ NL ++ str "- Built data pipelines." ++ NL ++
  str "* Led a team" ++ NL ++ [8226%N] ++ str " Tuned queries.".

End Scenario.
Import Scenario.

(* ================================================================== *)
(** ** turbo-pipeline.js: tailoring and the pipeline                   *)
(* ================================================================== *)

Module Orchestration.

(** What [turboTailorCV] returns, without the clock reading: [stats] is
    [{}] on the guard ([None] here) and holds [total] otherwise. *)
Record TailorOutcome : Type := mkTailorOutcome {
  outTailoredCV : jsstring;
  outInjectedKeywords : list jsstring;
  outStatsTotal : option nat
}.

(** The optional collaborator [global.TailorUniversal]. *)
Inductive Tailorers : Type :=
| TailorUniversal (tailorCV : jsstring -> KeywordSet -> TailorOutcome)
| NoTailorer.

Definition turboTailorCV (tailorers : Tailorers) (cvText : jsstring)
           (keywords : KeywordSet) : TailorOutcome :=
  match cvText, all keywords with
  | [], _ | _, [] =>
      {| outTailoredCV := cvText; outInjectedKeywords := [];
         outStatsTotal := None |}
  | _ :: _, _ :: _ =>
      match tailorers with
      | TailorUniversal tailorCV => tailorCV cvText keywords
      | NoTailorer =>
          let r := fastTailorFallback cvText keywords in
          {| outTailoredCV := tailoredCV r;
             outInjectedKeywords := injectedKeywords r;
             outStatsTotal := Some (statsTotal r) |}
      end
  end.

(** The result of [executeTurboPipeline], without timings. *)
Inductive PipelineResult : Type :=
| PipelineFailure (error : jsstring)
| PipelineSuccess (keywords : KeywordSet) (outcome : TailorOutcome).

(** [executeTurboPipeline]: [description] is [jobInfo.description || ''];
    the extraction runs with the default [maxKeywords = 35]. *)
Definition executeTurboPipeline (env : Extractors) (tailorers : Tailorers)
           (keywordCache : Cache) (description baseCV : jsstring)
  : Cache * PipelineResult :=
  let '(cache', keywordsResult) :=
    turboExtractKeywords env keywordCache description 35 in
  match all keywordsResult with
  | [] => (cache', PipelineFailure (str "No keywords extracted"))
  | _ :: _ =>
      (cache',
       PipelineSuccess keywordsResult
                       (turboTailorCV tailorers baseCV keywordsResult))
  end.

End Orchestration.

(* ================================================================== *)
(** ** pdf-ats-turbo.js: the contact block, the text and the file name *)
(* ================================================================== *)

Module Document.

(** The fields of [candidateData] the code reads.  Every read is of the
    form [x || y]: an absent field and an empty one behave alike, and
    [[]] stands for both (also for an absent [candidateData]). *)
Record CandidateData : Type := mkCandidateData {
  firstName : jsstring; first_name : jsstring;
  lastName : jsstring; last_name : jsstring;
  phone : jsstring; email : jsstring;
  linkedin : jsstring; github : jsstring; portfolio : jsstring;
  city : jsstring; location : jsstring
}.

(** [a || b] on strings. *)
Definition orElse (a b : jsstring) : jsstring :=
  match a with [] => b | _ :: _ => a end.

(** [parts.filter(Boolean)] on strings. *)
Definition truthy (parts : list jsstring) : list jsstring :=
  filter (fun s => negb (length s =? 0)) parts.

(** [toUpperCase], the mapping of the language on ASCII text. *)
Definition toUpperCase (s : jsstring) : jsstring := map toUpperUnit s.

Record ContactSection : Type := mkContactSection {
  name : jsstring;
  contactLine : jsstring;
  linksLine : jsstring
}.

Definition buildContactSection (candidateData : CandidateData)
  : ContactSection :=
  let first := orElse (firstName candidateData) (first_name candidateData) in
  let last := orElse (lastName candidateData) (last_name candidateData) in
  let loc := orElse (city candidateData)
                    (orElse (location candidateData)
                            (str "Open to relocation")) in
  {| name := trim (first ++ str " " ++ last);
     contactLine :=
       join (str " | ")
            (truthy [phone candidateData; email candidateData; loc;
                     str "open to relocation"]);
     linksLine :=
       join (str " | ")
            (truthy [linkedin candidateData; github candidateData;
                     portfolio candidateData]) |}.

(** One [if (sections.x) { lines.push(header); lines.push(x);
    lines.push('') }] of [buildPDFText]. *)
Definition sectionLines (header : String.string) (text : jsstring)
  : list jsstring :=
  match text with
  | [] => []
  | _ :: _ => [str header; text; []]
  end.
Arguments sectionLines header%_string text.

(** [buildPDFText]: the last section has no empty line after it. *)
Definition buildPDFText (contact : ContactSection) (sections : ParsedResume)
  : jsstring :=
  join NL
    ([toUpperCase (name contact); contactLine contact; linksLine contact; []]
       ++ sectionLines "PROFESSIONAL SUMMARY" (summary sections)
       ++ sectionLines "EXPERIENCE" (experience sections)
       ++ sectionLines "SKILLS" (skills sections)
       ++ sectionLines "EDUCATION" (education sections)
       ++ match certifications sections with
          | [] => []
          | _ :: _ => [str "CERTIFICATIONS"; certifications sections]
          end).

(** [s.replace(/\s+/g, '_')]: every run of white space becomes one
    underscore. *)
Fixpoint underscoreRuns (inRun : bool) (s : jsstring) : jsstring :=
  match s with
  | [] => []
  | c :: t =>
      if isSpace c then
        if inRun then underscoreRuns true t else 95%N :: underscoreRuns true t
      else c :: underscoreRuns false t
  end.

(** Every field of the candidate is ASCII text. *)
Definition asciiCandidate (candidateData : CandidateData) : bool :=
  forallb isAscii
    [firstName candidateData; first_name candidateData;
     lastName candidateData; last_name candidateData;
     phone candidateData; email candidateData; linkedin candidateData;
     github candidateData; portfolio candidateData;
     city candidateData; location candidateData].

(** The file name computed by [generateATSPerfectCV]. *)
Definition cvFileName (candidateData : CandidateData) : jsstring :=
  let first :=
    underscoreRuns false
      (orElse (firstName candidateData)
              (orElse (first_name candidateData) (str "Applicant"))) in
  let last :=
    underscoreRuns false
      (orElse (lastName candidateData) (last_name candidateData)) in
  match last with
  | [] => first ++ str "_CV.pdf"
  | _ :: _ => first ++ str "_" ++ last ++ str "_CV.pdf"
  end.

(** The field [text] of the result of [generateATSPerfectCV]. *)
Definition generatedText (candidateData : CandidateData)
           (tailoredCV : jsstring) (keywords : list jsstring) : jsstring :=
  buildPDFText (buildContactSection candidateData)
               (formatCVForATS tailoredCV keywords).

End Document.
Import Orchestration Document.

(* ================================================================== *)
(** ** Notions used in the statements                                  *)
(* ================================================================== *)

(** The two loops of the matcher, by name. *)
Definition starLoop (p : N -> bool) (cap : option jsstring) (k : cont)
  : jsstring -> jsstring -> option (option jsstring) :=
  fix star (pre suf : jsstring) {struct suf} :=
    match suf with
    | c :: t =>
        if p c then
          match star (c :: pre) t with
          | Some x => Some x
          | None => k pre suf cap
          end
        else k pre suf cap
    | [] => k pre suf cap
    end.

Definition lazyLoop (p : N -> bool) (cap : option jsstring) (k : cont)
  : jsstring -> jsstring -> option (option jsstring) :=
  fix lazy (pre suf : jsstring) {struct suf} :=
    match k pre suf cap with
    | Some x => Some x
    | None =>
        match suf with
        | c :: t => if p c then lazy (c :: pre) t else None
        | [] => None
        end
    end.

(** [x] is a contiguous part of [s]. *)
Definition partOf (x s : jsstring) : Prop := exists l r, s = l ++ x ++ r.

(** A character of a keyword of the internal extraction: [a-z], [0-9],
    [-] or [/]. *)
Definition isKeywordChar (c : N) : bool :=
  (((97 <=? c) && (c <=? 122)) || ((48 <=? c) && (c <=? 57)) ||
   (c =? 45) || (c =? 47))%N.

Definition isDigit (c : N) : bool := ((48 <=? c) && (c <=? 57))%N.

(** A cache with two entries, for texts of 50 and 51 characters. *)
Definition twoEntryCache : Cache :=
  extractAll NoExtractor [] [repeat 97%N 50; repeat 97%N 51] 35.

(** What formatting without keywords makes of a line: a bullet gets
    the glyph [-] and two spaces, another line is kept. *)
Definition normalLine (line : jsstring) : jsstring :=
  if isBullet (trim line) then str "-  " ++ stripGlyph (trim line) else line.

(** A candidate with a first name of two words, a last name with two
    spaces in it, a phone, two links and a location. *)
Definition sampleCandidate : CandidateData :=
  mkCandidateData (str "Mary Ann") [] [] (str "van  Dyke") (str "555") []
                  (str "in/mary") [] (str "mary.dev") [] (str "Oslo").

(** The content of every bullet of the text is ASCII (the bullet glyph
    and the lines that are no bullets may hold other characters): the
    experience formatter lowercases the contents of bullets and the
    keywords only. *)
Definition asciiBullets (experienceText : jsstring) : bool :=
  forallb (fun line =>
             negb (isBullet (trim line)) || isAscii (stripGlyph (trim line)))
          (splitOn isNewline experienceText).

(** Entries in non-increasing order of their value. *)
Definition valueGe (a b : jsstring * nat) : Prop := snd b <= snd a.

(* ================================================================== *)
(** ** The model at work                                               *)
(* ================================================================== *)

Section Runs.

Example split_runs_of_white_space :
  splitWhitespace (str "  a  b ") = [[]; str "a"; str "b"; []].
Proof. reflexivity. Qed.

Example cache_key_of_sample : getCacheKey sampleJobText = str "55_55_112".
Proof. vm_compute. reflexivity. Qed.

Example skills_header_found_ignoring_case :
  exec skillsHeader (str "Jane" ++ NL ++ str "skills:" ++ NL ++ str "Java")
  = Some (5, Some (str "skills")).
Proof. vm_compute. reflexivity. Qed.

Example skills_header_needs_line_start :
  exec skillsHeader (str "My SKILLS" ++ NL) = None.
Proof. vm_compute. reflexivity. Qed.

Example sections_of_full_resume :
  parseCVSections fullResume =
  {| summary := str "Data engineer.";
     experience :=
       str "Acme | 2020" ++ NL ++ str "- Built data pipelines." ++ NL ++
       str "* Led a team" ++ NL ++ str "- Tuned queries.";
     skills := str "Java, SQL";
     education := str "BSc";
     certifications := [] |}.
Proof. vm_compute. reflexivity. Qed.

Example full_resume_formatted :
  formatCVForATS fullResume threeKeywords =
  {| summary := str "Data engineer.";
     experience :=
       str "Acme | 2020" ++ NL ++
       str "-  Built data pipelines, leveraging Spark and Kafka." ++ NL ++
       str "-  Led a team utilizing Python" ++ NL ++ str "-  Tuned queries.";
     skills := str "Java, SQL, Spark, Kafka, Python";
     education := str "BSc";
     certifications := [] |}.
Proof. vm_compute. reflexivity. Qed.

Example injections_of_full_resume :
  injections (experience (parseCVSections fullResume)) threeKeywords =
  [[]; [str "Spark"; str "Kafka"]; [str "Python"]; []].
Proof. vm_compute. reflexivity. Qed.

(** A second pass over the formatted experience injects again: the
    pass starts from the first keyword and finds bullets with fewer
    than two keywords. *)
Example experience_second_pass_injects_again :
  let once := experience (formatCVForATS fullResume threeKeywords) in
  injections once threeKeywords =
  [[]; []; [str "Spark"]; [str "Kafka"; str "Python"]].
Proof. vm_compute. reflexivity. Qed.

Example section_goes_before_education :
  tailoredCV (fastTailorFallback educationCV (keywordsOf fourKeywords)) =
  str "Jane Doe" ++ NL ++ NL ++ str "SKILLS" ++ NL ++
  str "Python, AWS, Docker, Kubernetes" ++ NL ++ NL ++
  str "EDUCATION" ++ NL ++ str "BSc Physics".
Proof. vm_compute. reflexivity. Qed.

(** A keyword that holds a line feed and is found in the CV across the
    place where the first pass inserts its line is missing from the
    text returned, and the second pass injects it. *)
Example keyword_across_line_break_is_split :
  let kws := keywordsOf [str "s" ++ NL ++ str "j"; str "python"] in
  let first := fastTailorFallback (str "SKILLS" ++ NL ++ str "Java") kws in
  injectedKeywords first = [str "python"] /\
  injectedKeywords (fastTailorFallback (tailoredCV first) kws)
    = [str "s" ++ NL ++ str "j"].
Proof. vm_compute. split; reflexivity. Qed.

End Runs.

(* ================================================================== *)
(** ** Facts about the built-ins                                       *)
(* ================================================================== *)

Section BuiltinFacts.

Lemma jseqb_true (a b : jsstring) : jseqb a b = true <-> a = b.
Proof.
  unfold jseqb. destruct (jseq_dec a b); split; congruence.
Qed.

Lemma has_In (l : list jsstring) (x : jsstring) : has l x = true <-> In x l.
Proof.
  unfold has. rewrite existsb_exists. split.
  - intros (y & Hy & E). apply jseqb_true in E. now subst.
  - intros H. exists x. split; [assumption | now apply jseqb_true].
Qed.

Lemma has_false (l : list jsstring) (x : jsstring) :
  has l x = false <-> ~ In x l.
Proof.
  rewrite <- has_In. destruct (has l x); split; congruence.
Qed.

Lemma add_incl (l : list jsstring) (x : jsstring) : incl l (add l x).
Proof.
  unfold add. destruct (has l x); [apply incl_refl | apply incl_appl, incl_refl].
Qed.

Lemma add_In (l : list jsstring) (x : jsstring) : In x (add l x).
Proof.
  unfold add. destruct (has l x) eqn:E.
  - now apply has_In.
  - apply in_or_app. right. now left.
Qed.

End BuiltinFacts.

(* ================================================================== *)
(** ** Experience injection                                            *)
(* ================================================================== *)

Section ExperienceInjection.

Variable keywords : list jsstring.

(** What one run of the [while] loop pushes: keywords of [rest], no two
    equal up to case, none consumed before, all consumed afterwards;
    and [toAdd] never grows beyond [limit]. *)
Lemma selectKeywords_spec bulletLower limit rest :
  forall st toAdd st' out,
    selectKeywords bulletLower limit rest st toAdd = (st', out) ->
    exists new,
      out = toAdd ++ new /\
      (length toAdd <= limit -> length out <= limit) /\
      incl new rest /\
      NoDup (map toLowerCase new) /\
      (forall x, In x new -> ~ In (toLowerCase x) (usedKeywords st)) /\
      incl (usedKeywords st) (usedKeywords st') /\
      incl (map toLowerCase new) (usedKeywords st').
Proof.
  induction rest as [|kw rest' IH]; intros st toAdd st' out; simpl.
  - intros [= <- <-]. exists []. rewrite app_nil_r.
    repeat split; auto using incl_refl, NoDup_nil; try easy.
  - destruct (length toAdd <? limit) eqn:Hlt.
    2:{ intros [= <- <-]. exists []. rewrite app_nil_r.
        repeat split; auto using incl_refl, NoDup_nil; try easy. }
    apply Nat.ltb_lt in Hlt.
    destruct (negb (includes bulletLower (toLowerCase kw)) &&
              negb (has (usedKeywords st) (toLowerCase kw))) eqn:Hsel.
    + apply andb_true_iff in Hsel as [_ Hfresh].
      apply negb_true_iff, has_false in Hfresh.
      intros H. apply IH in H as (new & -> & Hlen & Hin & Hnd & Hun & Hus & Hlow).
      simpl in *. exists (kw :: new). rewrite <- app_assoc. simpl.
      repeat split.
      * intros _. rewrite <- app_assoc in Hlen. apply Hlen.
        rewrite length_app. simpl. lia.
      * intros x [<- | Hx]; [now left | right; now apply Hin].
      * constructor; [|assumption].
        intros Hk. apply in_map_iff in Hk as (y & Ey & Hy).
        apply (Hun y Hy). rewrite Ey. apply add_In.
      * intros x [<- | Hx]; [assumption|].
        intros Hu. apply (Hun x Hx). now apply add_incl.
      * eapply incl_tran; [apply add_incl | exact Hus].
      * intros x [<- | Hx]; [apply Hus, add_In | now apply Hlow].
    + intros H. apply IH in H as (new & -> & Hlen & Hin & Hnd & Hun & Hus & Hlow).
      simpl in *. exists new. repeat split; auto.
      intros x Hx. right. now apply Hin.
Qed.

(** The same for one line. *)
Lemma formatLine_spec st line st' out toAdd :
  formatLine keywords st line = (st', (out, toAdd)) ->
  length toAdd <= maxKeywordsPerBullet /\
  incl toAdd keywords /\
  NoDup (map toLowerCase toAdd) /\
  (forall x, In x toAdd -> ~ In (toLowerCase x) (usedKeywords st)) /\
  incl (usedKeywords st) (usedKeywords st') /\
  incl (map toLowerCase toAdd) (usedKeywords st').
Proof.
  unfold formatLine.
  assert (Hnone : length (@nil jsstring) <= maxKeywordsPerBullet /\
                  incl [] keywords /\ NoDup (map toLowerCase []) /\
                  (forall x, In x [] -> ~ In (toLowerCase x) (usedKeywords st)) /\
                  incl (usedKeywords st) (usedKeywords st) /\
                  incl (map toLowerCase []) (usedKeywords st)).
  { simpl. repeat split; auto using incl_refl, NoDup_nil, incl_nil_l; try easy.
    lia. }
  destruct (isBullet (trim line)); [|intros [= <- <- <-]; exact Hnone].
  match goal with |- context [(?e <? maxKeywordsPerBullet) && _] =>
    set (existingCount := e) end.
  destruct ((existingCount <? maxKeywordsPerBullet) &&
            (keywordIndex st <? length keywords)) eqn:Hc;
    [|intros [= <- <- <-]; exact Hnone].
  destruct selectKeywords as [st1 toAdd1] eqn:Hsel.
  intros [= <- <- <-].
  apply selectKeywords_spec in Hsel
    as (new & E & Hlen & Hin & Hnd & Hun & Hus & Hlow).
  simpl in E. subst new. repeat split; auto.
  - etransitivity; [apply Hlen; simpl; lia | lia].
  - intros x Hx. apply Hin in Hx.
    rewrite <- (firstn_skipn (keywordIndex st) keywords).
    apply in_or_app. now right.
Qed.

Lemma formatLines_spec lines :
  forall st,
    let added := map snd (formatLines keywords st lines) in
    Forall (fun toAdd => length toAdd <= maxKeywordsPerBullet) added /\
    incl (concat added) keywords /\
    NoDup (map toLowerCase (concat added)) /\
    (forall x, In x (concat added) -> ~ In (toLowerCase x) (usedKeywords st)).
Proof.
  induction lines as [|line lines' IH]; intros st; simpl.
  - repeat split; auto using NoDup_nil, incl_nil_l; easy.
  - destruct (formatLine keywords st line) as [st' [out toAdd]] eqn:Hline.
    apply formatLine_spec in Hline as (Hlen & Hin & Hnd & Hun & Hus & Hlow).
    destruct (IH st') as (IHlen & IHin & IHnd & IHun). simpl.
    repeat split.
    + now constructor.
    + now apply incl_app.
    + rewrite map_app. apply NoDup_app; auto.
      intros y Hy Hy'. apply in_map_iff in Hy' as (x & <- & Hx).
      apply (IHun x Hx). now apply Hlow.
    + intros x Hx. apply in_app_or in Hx as [Hx | Hx]; [now apply Hun|].
      intros Hu. apply (IHun x Hx). now apply Hus.
Qed.

End ExperienceInjection.

(** C1.  One pass of [formatExperienceWithKeywords], on any experience
    text and any keyword list: no line gains more than 2 keywords; the
    keywords injected over all lines are pairwise different, even up to
    case, so that none is injected twice; they are keywords of the list;
    and their number is at most the number of distinct keywords
    supplied. *)
Theorem injection_bounded_and_unique :
  forall (experienceText : jsstring) (keywords : list jsstring),
    let added := injections experienceText keywords in
    Forall (fun toAdd => length toAdd <= 2) added /\
    NoDup (map toLowerCase (concat added)) /\
    NoDup (concat added) /\
    incl (concat added) keywords /\
    length (concat added) <= length (nodup jseq_dec keywords).
Proof.
  intros experienceText keywords added.
  assert (H : Forall (fun toAdd => length toAdd <= 2) added /\
              incl (concat added) keywords /\
              NoDup (map toLowerCase (concat added))).
  { unfold added, injections. destruct experienceText as [|c t].
    - simpl. repeat split; auto using NoDup_nil, incl_nil_l.
    - unfold formattedLines.
      destruct (formatLines_spec keywords (splitOn isNewline (c :: t))
                  (mkInjectState 0 [])) as (H1 & H2 & H3 & _).
      now repeat split. }
  destruct H as (Hlen & Hin & Hnd).
  assert (Hnd' : NoDup (concat added)) by (eapply NoDup_map_inv; eassumption).
  repeat split; auto.
  apply NoDup_incl_length; [assumption|].
  intros x Hx. apply nodup_In. now apply Hin.
Qed.

(* ================================================================== *)
(** ** Tiers of a keyword set                                          *)
(* ================================================================== *)

Section Tiering.

(** [ceil35 n] is the least integer not below [0.35 * n]. *)
Lemma ceil35_least (n k : nat) : ceil35 n <= k <-> 7 * n <= 20 * k.
Proof.
  unfold ceil35. split; intros H.
  - pose proof (Nat.div_mod_eq (7 * n + 19) 20) as E.
    pose proof (Nat.mod_upper_bound (7 * n + 19) 20 ltac:(lia)). lia.
  - apply Nat.lt_succ_r, Nat.Div0.div_lt_upper_bound. lia.
Qed.

Lemma ceil35_le (n : nat) : ceil35 n <= n.
Proof. apply ceil35_least. lia. Qed.

(** Three consecutive slices are the list, cut in three. *)
Lemma slices_partition {A} (l : list A) (h m : nat) :
  slice l 0 h ++ slice l h (h + m) ++ sliceFrom l (h + m) = l.
Proof.
  unfold slice, sliceFrom. simpl.
  replace (h - 0) with h by lia. replace (h + m - h) with m by lia.
  rewrite (Nat.add_comm h m), <- skipn_skipn.
  now rewrite firstn_skipn, firstn_skipn.
Qed.

Lemma partition_lengths {A} (l a b c : list A) :
  a ++ b ++ c = l -> length a + length b + length c = length l.
Proof. intros <-. rewrite !length_app. lia. Qed.

Lemma slice_prefix_length {A} (l : list A) (h : nat) :
  length (slice l 0 h) = Nat.min h (length l).
Proof.
  unfold slice. simpl. rewrite length_firstn. f_equal. lia.
Qed.

End Tiering.

(* ================================================================== *)
(** ** The frequency table and its ranking                             *)
(* ================================================================== *)

Section Ranking.

Lemma keys_set {V} (m : JSMap.t V) k v :
  JSMap.keys (JSMap.set m k v) =
  if in_dec jseq_dec k (JSMap.keys m) then JSMap.keys m
  else JSMap.keys m ++ [k].
Proof.
  induction m as [|[k' v'] m IH]; simpl.
  - reflexivity.
  - destruct (jseq_dec k k') as [->|Hne]; simpl.
    + destruct (jseq_dec k' k'); [reflexivity | congruence].
    + rewrite IH. destruct (jseq_dec k' k); [congruence|].
      now destruct (in_dec jseq_dec k (JSMap.keys m)).
Qed.

Lemma keys_set_NoDup {V} (m : JSMap.t V) k v :
  NoDup (JSMap.keys m) -> NoDup (JSMap.keys (JSMap.set m k v)).
Proof.
  intros H. rewrite keys_set.
  destruct (in_dec jseq_dec k (JSMap.keys m)); [assumption|].
  apply NoDup_app; auto.
  - constructor; [easy | constructor].
  - intros x Hx [<- | []]. contradiction.
Qed.

Lemma frequencies_NoDup (words : list jsstring) :
  NoDup (JSMap.keys (frequencies words)).
Proof.
  unfold frequencies.
  assert (H : forall m : JSMap.t nat, NoDup (JSMap.keys m) ->
                NoDup (JSMap.keys (fold_left countWord words m))).
  { induction words as [|w ws IH]; intros m Hm; simpl; [assumption|].
    apply IH. unfold countWord. now apply keys_set_NoDup. }
  apply H. constructor.
Qed.

Lemma insertDesc_perm x l : Permutation (insertDesc x l) (x :: l).
Proof.
  induction l as [|y l IH]; simpl; [reflexivity|].
  destruct (snd x <? snd y); [|reflexivity].
  rewrite IH. apply perm_swap.
Qed.

Lemma sortDesc_perm l : Permutation (sortDesc l) l.
Proof.
  induction l as [|x l IH]; simpl; [reflexivity|].
  rewrite insertDesc_perm. now constructor.
Qed.

Lemma NoDup_firstn {A} (l : list A) n : NoDup l -> NoDup (firstn n l).
Proof.
  intros H. rewrite <- (firstn_skipn n l) in H.
  now apply NoDup_app_remove_r in H.
Qed.

Lemma NoDup_skipn {A} (l : list A) n : NoDup l -> NoDup (skipn n l).
Proof.
  intros H. rewrite <- (firstn_skipn n l) in H.
  now apply NoDup_app_remove_l in H.
Qed.

Lemma ranked_NoDup (text : jsstring) (maxKeywords : nat) :
  NoDup (all (ultraFastExtraction text maxKeywords)).
Proof.
  simpl. unfold slice. simpl. apply NoDup_firstn.
  eapply Permutation_NoDup.
  - apply Permutation_map, Permutation_sym, sortDesc_perm.
  - apply frequencies_NoDup.
Qed.

End Ranking.

(** C2, refuted as stated.  With a generic extractor that returns 35
    keywords and the default [maxKeywords] of 35, the high tier holds
    12 keywords although [ceil(0.35 * 35)] is 13 (and the medium tier
    holds 10).  With the same extractor and [maxKeywords] of 10,
    [total] is 35 while [all] holds 10 keywords. *)
Lemma generic_high_tier_is_capped :
  (let r := snd (turboExtractKeywords (Generic (fun _ _ => thirtyFiveKeywords))
                                      [] sampleJobText 35) in
   total r = 35 /\ length (all r) = 35 /\
   length (highPriority r) = 12 /\ ceil35 (total r) = 13 /\
   length (highPriority r) <> ceil35 (total r) /\
   length (mediumPriority r) = 10) /\
  (let r := snd (turboExtractKeywords (Generic (fun _ _ => thirtyFiveKeywords))
                                      [] sampleJobText 10) in
   total r = 35 /\ length (all r) = 10 /\ total r <> length (all r)).
Proof.
  vm_compute. repeat split; discriminate.
Qed.

(** C2, amended.  On the internal fallback the three tiers are
    consecutive slices that make up the ranked list, which has no
    repeated keyword; their lengths sum to [total], which is the length
    of [all]; the high tier has [ceil(0.35 * total)] keywords and the
    medium tier as many, or what is left after the high tier when that
    is less.  On the path that wraps a generic extractor the tiers are
    consecutive slices that make up the list the extractor returned and
    their lengths sum to [total], the length of that list; but the high
    tier has [min(12, ceil(0.35 * total))] keywords, the medium tier
    [min(10, ceil(0.35 * total))] or what is left after the high tier
    when that is less, and [all] is that list cut at [maxKeywords], of
    length [min(maxKeywords, total)].  These are the sets
    [turboExtractKeywords] returns on a cache miss; for a text shorter
    than 50 characters it returns the empty set. *)
Theorem tiers_partition_ranked_list :
  forall (text : jsstring) (maxKeywords : nat)
         (extractKeywords : jsstring -> nat -> list jsstring),
    (let r := extractUncached NoExtractor text maxKeywords in
     highPriority r ++ mediumPriority r ++ lowPriority r = all r /\
     NoDup (all r) /\
     length (highPriority r) + length (mediumPriority r) +
       length (lowPriority r) = total r /\
     total r = length (all r) /\
     length (highPriority r) = ceil35 (total r) /\
     length (mediumPriority r)
       = Nat.min (ceil35 (total r)) (total r - ceil35 (total r))) /\
    (let r := extractUncached (Generic extractKeywords) text maxKeywords in
     let ranked := extractKeywords text maxKeywords in
     highPriority r ++ mediumPriority r ++ lowPriority r = ranked /\
     length (highPriority r) + length (mediumPriority r) +
       length (lowPriority r) = total r /\
     total r = length ranked /\
     all r = firstn maxKeywords ranked /\
     length (all r) = Nat.min maxKeywords (total r) /\
     length (highPriority r) = Nat.min 12 (ceil35 (total r)) /\
     length (mediumPriority r)
       = Nat.min (Nat.min 10 (ceil35 (total r)))
                 (total r - Nat.min 12 (ceil35 (total r)))) /\
    (forall env,
        snd (turboExtractKeywords env [] text maxKeywords) =
        if length text <? 50 then emptyKeywordSet
        else extractUncached env text maxKeywords).
Proof.
  intros text maxKeywords extractKeywords.
  assert (Hslice : forall (l : list jsstring) a b,
             length (slice l a (a + b)) = Nat.min b (length l - a)).
  { intros l a b. unfold slice.
    rewrite length_firstn, length_skipn. f_equal. lia. }
  split; [|split].
  3:{ intros env. unfold turboExtractKeywords.
      now destruct (length text <? 50). }
  - pose proof (ranked_NoDup text maxKeywords) as Hnd.
    cbv zeta. unfold extractUncached. remember (ultraFastExtraction _ _) as r.
    assert (E : highPriority r ++ mediumPriority r ++ lowPriority r = all r).
    { subst r. simpl. apply slices_partition. }
    repeat split; auto.
    + rewrite (partition_lengths _ _ _ _ E). now subst r.
    + now subst r.
    + subst r. unfold ultraFastExtraction.
      cbn [all highPriority mediumPriority lowPriority total].
      rewrite slice_prefix_length. apply Nat.min_l, ceil35_le.
    + subst r. unfold ultraFastExtraction.
      cbn [all highPriority mediumPriority lowPriority total].
      apply Hslice.
  - cbv zeta. unfold extractUncached, wrapGeneric.
    cbn [all highPriority mediumPriority lowPriority total].
    set (ranked := extractKeywords text maxKeywords).
    pose proof (slices_partition ranked (Nat.min 12 (ceil35 (length ranked)))
                  (Nat.min 10 (ceil35 (length ranked)))) as E.
    repeat split; auto.
    + now apply partition_lengths.
    + unfold slice. now rewrite Nat.sub_0_r.
    + apply slice_prefix_length.
    + rewrite slice_prefix_length. pose proof (ceil35_le (length ranked)). lia.
Qed.

(* ================================================================== *)
(** ** The boost of the frequency table                                *)
(* ================================================================== *)

Section MapFacts.
Context {V : Type}.
Implicit Types (m : JSMap.t V) (k : jsstring) (v : V).

Lemma get_set_same m k v : JSMap.get (JSMap.set m k v) k = Some v.
Proof.
  induction m as [|[k' v'] m IH]; simpl.
  - destruct (jseq_dec k k); congruence.
  - destruct (jseq_dec k k') as [->|Hne]; simpl.
    + destruct (jseq_dec k' k'); congruence.
    + destruct (jseq_dec k k'); congruence.
Qed.

Lemma get_set_other m k k' v :
  k <> k' -> JSMap.get (JSMap.set m k v) k' = JSMap.get m k'.
Proof.
  intros Hne. induction m as [|[k0 v0] m IH]; simpl.
  - destruct (jseq_dec k' k); congruence.
  - destruct (jseq_dec k k0) as [->|Hk]; simpl.
    + destruct (jseq_dec k' k0); congruence.
    + destruct (jseq_dec k' k0); congruence.
Qed.

Lemma get_None m k : JSMap.get m k = None <-> ~ In k (JSMap.keys m).
Proof.
  induction m as [|[k' v'] m IH]; simpl; [tauto|].
  destruct (jseq_dec k k') as [->|Hne].
  - split; [discriminate | intros H; exfalso; apply H; now left].
  - rewrite IH. split; [intros H [E|Hin]; [congruence | tauto] | tauto].
Qed.

Lemma get_Some_keys m k : JSMap.get m k <> None <-> In k (JSMap.keys m).
Proof.
  rewrite get_None. destruct (in_dec jseq_dec k (JSMap.keys m)); tauto.
Qed.

Lemma set_new m k v :
  ~ In k (JSMap.keys m) -> JSMap.set m k v = m ++ [(k, v)].
Proof.
  induction m as [|[k' v'] m IH]; simpl; intros Hk; [reflexivity|].
  destruct (jseq_dec k k') as [->|Hne]; [tauto|].
  rewrite IH; tauto.
Qed.
End MapFacts.

Section Boost.

Lemma afterOccurrences_S w n v :
  afterOccurrences w (S n) v = afterOccurrences w n ((v + 1) * boostOf w).
Proof. unfold afterOccurrences. now rewrite Nat.iter_succ_r. Qed.

Lemma fold_countWord (words : list jsstring) (w : jsstring) :
  forall freq : JSMap.t nat,
    JSMap.get (fold_left countWord words freq) w =
    match count_occ jseq_dec words w with
    | 0 => JSMap.get freq w
    | S _ as n =>
        Some (afterOccurrences w n
                (match JSMap.get freq w with Some v => v | None => 0 end))
    end.
Proof.
  induction words as [|x words IH]; intros freq; [reflexivity|].
  cbn [fold_left count_occ]. rewrite IH. unfold countWord.
  destruct (jseq_dec x w) as [->|Hne].
  - rewrite get_set_same. fold (boostOf w).
    destruct (count_occ jseq_dec words w); [reflexivity|].
    now rewrite (afterOccurrences_S w (S n)).
  - now rewrite get_set_other.
Qed.

Lemma plain_count w n : boostOf w = 1 -> afterOccurrences w n 0 = n.
Proof.
  intros E. unfold afterOccurrences.
  induction n as [|n IH]; simpl; [reflexivity|]. rewrite IH, E. lia.
Qed.

Lemma compounded_count w n :
  boostOf w = 3 -> 2 * afterOccurrences w n 0 + 3 = 3 ^ (n + 1).
Proof.
  intros E. induction n as [|n IH]; [reflexivity|].
  change (afterOccurrences w (S n) 0)
    with ((afterOccurrences w n 0 + 1) * boostOf w).
  rewrite E. replace (S n + 1) with (S (n + 1)) by lia.
  rewrite Nat.pow_succ_r'. lia.
Qed.

End Boost.

(** C3, evidence of the defect.  For every token list, the value the
    frequency table holds for a token with [n >= 1] occurrences is [n]
    when the token is not on the allowlist, but [(3^(n+1) - 3) / 2] when
    it is: the boost is applied again at each occurrence, to the value
    already boosted.  On the sample text ([python] twice, [alpha] seven
    times) the table holds 12 for [python] and the code ranks [python]
    first; by occurrences times 3, once, [python] scores 6 and [alpha],
    with 7, is first. *)
Theorem boost_compounds_per_occurrence :
  (forall (words : list jsstring) (w : jsstring),
      JSMap.get (frequencies words) w =
      match count_occ jseq_dec words w with
      | 0 => None
      | S _ as n => Some (afterOccurrences w n 0)
      end) /\
  (forall w n, 2 * afterOccurrences w n 0 + 3 =
               if has techBoost w then 3 ^ (n + 1) else 2 * n + 3) /\
  frequencies (tokenize sampleJobText) = [(str "python", 12); (str "alpha", 7)] /\
  all (ultraFastExtraction sampleJobText 35) = [str "python"; str "alpha"] /\
  Spec.boostedFrequency (tokenize sampleJobText) (str "python") = 6 /\
  Spec.boostedFrequency (tokenize sampleJobText) (str "alpha") = 7 /\
  Spec.rankedKeywords sampleJobText 35 = [str "alpha"; str "python"].
Proof.
  split; [|split].
  - intros words w. unfold frequencies. now rewrite fold_countWord.
  - intros w n. destruct (has techBoost w) eqn:E.
    + apply compounded_count. unfold boostOf. now rewrite E.
    + rewrite plain_count; [reflexivity|]. unfold boostOf. now rewrite E.
  - repeat split; vm_compute; reflexivity.
Qed.

(* ================================================================== *)
(** ** The keyword cache                                               *)
(* ================================================================== *)

Section CacheFacts.

Variable env : Extractors.
Variable maxKeywords : nat.

Lemma size_keys {V} (m : JSMap.t V) : JSMap.size m = length (JSMap.keys m).
Proof. unfold JSMap.size, JSMap.keys. now rewrite length_map. Qed.

Lemma size_set_le {V} (m : JSMap.t V) k v :
  JSMap.size (JSMap.set m k v) <= S (JSMap.size m).
Proof.
  rewrite !size_keys, keys_set.
  destruct (in_dec jseq_dec k (JSMap.keys m)); [lia|].
  rewrite length_app. simpl. lia.
Qed.

(** Making room deletes the head of the list, and nothing else. *)
Lemma cacheResult_eq (c : Cache) k r :
  cacheResult c k r =
  JSMap.set (if MAX_CACHE_SIZE <=? JSMap.size c then tl c else c) k r.
Proof.
  unfold cacheResult. destruct (MAX_CACHE_SIZE <=? JSMap.size c); [|reflexivity].
  destruct c as [|[k0 v0] c]; simpl; [reflexivity|].
  destruct (jseq_dec k0 k0); congruence.
Qed.

Lemma keys_cacheResult (c : Cache) k r :
  ~ In k (JSMap.keys c) ->
  JSMap.keys (cacheResult c k r) =
  (if MAX_CACHE_SIZE <=? JSMap.size c then tl (JSMap.keys c) else JSMap.keys c)
    ++ [k].
Proof.
  intros Hk. rewrite cacheResult_eq.
  destruct (MAX_CACHE_SIZE <=? JSMap.size c).
  - rewrite set_new.
    + unfold JSMap.keys. rewrite map_app. now destruct c.
    + intros Hin. apply Hk. destruct c; [assumption | now right].
  - rewrite set_new by assumption. unfold JSMap.keys. now rewrite map_app.
Qed.

Lemma size_cacheResult (c : Cache) k r :
  JSMap.size c <= MAX_CACHE_SIZE ->
  JSMap.size (cacheResult c k r) <= MAX_CACHE_SIZE.
Proof.
  intros Hc. rewrite cacheResult_eq.
  etransitivity; [apply size_set_le|].
  destruct (MAX_CACHE_SIZE <=? JSMap.size c) eqn:E.
  - apply Nat.leb_le in E.
    destruct c; simpl in *; [unfold MAX_CACHE_SIZE in E|]; lia.
  - apply Nat.leb_gt in E. lia.
Qed.

Lemma turboExtractKeywords_miss (c : Cache) (t : jsstring) :
  50 <= length t ->
  JSMap.get c (getCacheKey t) = None ->
  turboExtractKeywords env c t maxKeywords =
  (cacheResult c (getCacheKey t) (extractUncached env t maxKeywords),
   extractUncached env t maxKeywords).
Proof.
  intros Hlen Hget. unfold turboExtractKeywords.
  destruct (length t <? 50) eqn:E; [apply Nat.ltb_lt in E; lia|].
  now rewrite Hget.
Qed.

Lemma size_step (c : Cache) (t : jsstring) :
  JSMap.size c <= MAX_CACHE_SIZE ->
  JSMap.size (fst (turboExtractKeywords env c t maxKeywords)) <= MAX_CACHE_SIZE.
Proof.
  intros Hc. unfold turboExtractKeywords.
  destruct (length t <? 50); [assumption|].
  destruct (JSMap.get c (getCacheKey t)); [assumption|].
  now apply size_cacheResult.
Qed.

Lemma extractAll_cons (c : Cache) t ts :
  extractAll env c (t :: ts) maxKeywords =
  extractAll env (fst (turboExtractKeywords env c t maxKeywords)) ts maxKeywords.
Proof. reflexivity. Qed.

Lemma size_extractAll (texts : list jsstring) :
  forall c : Cache,
    JSMap.size c <= MAX_CACHE_SIZE ->
    JSMap.size (extractAll env c texts maxKeywords) <= MAX_CACHE_SIZE.
Proof.
  induction texts as [|t ts IH]; intros c Hc; [assumption|].
  rewrite extractAll_cons. apply IH, size_step, Hc.
Qed.

(** Fresh fingerprints: the cache holds the last 50 keys, oldest
    first. *)
Lemma keys_extractAll (texts : list jsstring) :
  forall c : Cache,
    Forall (fun t => 50 <= length t) texts ->
    NoDup (JSMap.keys c ++ map getCacheKey texts) ->
    JSMap.size c <= MAX_CACHE_SIZE ->
    JSMap.keys (extractAll env c texts maxKeywords) =
    skipn (length (JSMap.keys c ++ map getCacheKey texts) - MAX_CACHE_SIZE)
          (JSMap.keys c ++ map getCacheKey texts).
Proof.
  induction texts as [|t ts IH]; intros c Hlen Hnd Hc.
  - simpl. rewrite app_nil_r, <- size_keys.
    now replace (JSMap.size c - MAX_CACHE_SIZE) with 0 by lia.
  - inversion Hlen as [|? ? Ht Hts]; subst.
    assert (Hfresh : ~ In (getCacheKey t) (JSMap.keys c)).
    { simpl in Hnd. apply NoDup_remove_2 in Hnd.
      intros Hin. apply Hnd, in_or_app. now left. }
    rewrite extractAll_cons.
    rewrite turboExtractKeywords_miss by (try apply get_None; assumption).
    cbn [fst map].
    set (c' := cacheResult c _ _).
    assert (Hk' : JSMap.keys c' = _) by (apply keys_cacheResult, Hfresh).
    rewrite size_keys in *.
    assert (E : JSMap.keys c' ++ map getCacheKey ts =
                skipn (if MAX_CACHE_SIZE <=? length (JSMap.keys c) then 1 else 0)
                      (JSMap.keys c ++ getCacheKey t :: map getCacheKey ts)).
    { rewrite Hk', <- app_assoc.
      destruct (MAX_CACHE_SIZE <=? length (JSMap.keys c)) eqn:E; [|reflexivity].
      apply Nat.leb_le in E.
      destruct (JSMap.keys c); [unfold MAX_CACHE_SIZE in E; simpl in E; lia|].
      reflexivity. }
    assert (Hlen' : length (JSMap.keys c') <= MAX_CACHE_SIZE).
    { rewrite Hk', length_app. cbn [length].
      destruct (MAX_CACHE_SIZE <=? length (JSMap.keys c)) eqn:E';
        [apply Nat.leb_le in E' | apply Nat.leb_gt in E'].
      - assert (length (tl (JSMap.keys c)) = length (JSMap.keys c) - 1)
          by (destruct (JSMap.keys c); simpl; lia).
        unfold MAX_CACHE_SIZE in *. lia.
      - lia. }
    rewrite IH; [|assumption| |now rewrite size_keys].
    + rewrite E, skipn_skipn, length_skipn. f_equal.
      rewrite length_app. cbn [length].
      destruct (MAX_CACHE_SIZE <=? length (JSMap.keys c)) eqn:E';
        [apply Nat.leb_le in E' | apply Nat.leb_gt in E'];
        unfold MAX_CACHE_SIZE in *; lia.
    + rewrite E. now apply NoDup_skipn.
Qed.

End CacheFacts.

(** C5.  From the empty cache, whatever the calls, the cache never
    holds more than 50 entries.  After 51 calls on texts long enough to
    be extracted and with 51 distinct fingerprints, it holds exactly 50
    entries: the keys of the last 50 texts, in the order they came; the
    key of the first text is absent and those of the 50 others are
    present; and it stays within 50 entries under any further calls. *)
Theorem cache_keeps_last_fifty :
  forall (env : Extractors) (maxKeywords : nat) (texts : list jsstring),
    length texts = 51 ->
    Forall (fun t => 50 <= length t) texts ->
    NoDup (map getCacheKey texts) ->
    let cache := extractAll env [] texts maxKeywords in
    JSMap.size cache = 50 /\
    JSMap.keys cache = map getCacheKey (tl texts) /\
    JSMap.get cache (getCacheKey (hd [] texts)) = None /\
    Forall (fun t => JSMap.get cache (getCacheKey t) <> None) (tl texts) /\
    (forall more,
        JSMap.size (extractAll env cache more maxKeywords) <= MAX_CACHE_SIZE) /\
    (forall any,
        JSMap.size (extractAll env [] any maxKeywords) <= MAX_CACHE_SIZE).
Proof.
  intros env maxKeywords texts Hlen Hlong Hnd cache.
  assert (Hkeys : JSMap.keys cache = map getCacheKey (tl texts)).
  { unfold cache. rewrite keys_extractAll; auto.
    - cbn [JSMap.keys map app]. rewrite length_map, Hlen.
      destruct texts; [discriminate | reflexivity].
    - unfold MAX_CACHE_SIZE. simpl. lia. }
  assert (Hsize : JSMap.size cache = 50).
  { rewrite size_keys, Hkeys, length_map.
    destruct texts; [discriminate | simpl in *; lia]. }
  repeat split; auto.
  - apply get_None. rewrite Hkeys.
    destruct texts as [|t ts]; [discriminate|].
    simpl in *. now inversion Hnd.
  - apply Forall_forall. intros t Ht. apply get_Some_keys.
    rewrite Hkeys. now apply in_map.
  - intros more. apply size_extractAll. rewrite Hsize. reflexivity.
  - intros any. apply size_extractAll. unfold MAX_CACHE_SIZE. simpl. lia.
Qed.

Lemma Forall_long (l : list jsstring) :
  forallb (fun t => 50 <=? length t) l = true ->
  Forall (fun t => 50 <= length t) l.
Proof.
  intros H. apply Forall_forall. intros t Ht.
  apply Nat.leb_le. revert t Ht. now apply forallb_forall.
Defined.

Lemma NoDup_checked (l : list jsstring) : nodup jseq_dec l = l -> NoDup l.
Proof. intros <-. apply NoDup_nodup. Defined.

(** C5 at 51 texts of lengths 50 to 100. *)
Lemma cache_keeps_last_fifty_witness :
  let cache := extractAll NoExtractor [] fiftyOneTexts 35 in
  JSMap.size cache = 50 /\
  JSMap.keys cache = map getCacheKey (tl fiftyOneTexts) /\
  JSMap.get cache (getCacheKey (hd [] fiftyOneTexts)) = None /\
  Forall (fun t => JSMap.get cache (getCacheKey t) <> None) (tl fiftyOneTexts) /\
  (forall more, JSMap.size (extractAll NoExtractor cache more 35) <= MAX_CACHE_SIZE) /\
  (forall any, JSMap.size (extractAll NoExtractor [] any 35) <= MAX_CACHE_SIZE).
Proof.
  apply (cache_keeps_last_fifty NoExtractor 35 fiftyOneTexts).
  - reflexivity.
  - apply Forall_long. vm_compute. reflexivity.
  - apply NoDup_checked. vm_compute. reflexivity.
Defined.

(* ================================================================== *)
(** ** Colliding fingerprints                                          *)
(* ================================================================== *)

Lemma getCacheKey_collision (t1 t2 : jsstring) :
  length t1 = length t2 ->
  length (slice t1 0 500) = length (slice t2 0 500) ->
  hd_error t1 = hd_error t2 ->
  getCacheKey t1 = getCacheKey t2.
Proof.
  intros Hlen Hpre Hhd. unfold getCacheKey. rewrite Hlen, Hpre.
  do 4 f_equal. destruct t1, t2; simpl in *; congruence.
Qed.

(** C6.  Two texts with the same length, the same length of their
    500-character prefix and the same first character code have the
    same cache key; and whatever the cache and the extractors, the
    second of two successive calls returns the keyword set the first
    returned and leaves the cache as the first left it: when the texts
    are long enough to be extracted, that set is the entry the cache
    holds under the key of the second text. *)
Theorem colliding_texts_share_entry :
  forall (env : Extractors) (keywordCache : Cache) (maxKeywords : nat)
         (t1 t2 : jsstring),
    length t1 = length t2 ->
    length (slice t1 0 500) = length (slice t2 0 500) ->
    hd_error t1 = hd_error t2 ->
    getCacheKey t1 = getCacheKey t2 /\
    let first := turboExtractKeywords env keywordCache t1 maxKeywords in
    let second := turboExtractKeywords env (fst first) t2 maxKeywords in
    snd second = snd first /\
    fst second = fst first /\
    (50 <= length t1 ->
     JSMap.get (fst first) (getCacheKey t2) = Some (snd first)).
Proof.
  intros env c maxKeywords t1 t2 Hlen Hpre Hhd.
  pose proof (getCacheKey_collision t1 t2 Hlen Hpre Hhd) as Hkey.
  split; [assumption|]. cbv zeta.
  unfold turboExtractKeywords. rewrite <- Hlen, <- Hkey.
  destruct (length t1 <? 50) eqn:E.
  - cbn [fst snd]. apply Nat.ltb_lt in E. repeat split; auto. lia.
  - destruct (JSMap.get c (getCacheKey t1)) as [cached|] eqn:G; cbn [fst snd].
    + rewrite G. cbn [fst snd]. auto.
    + unfold cacheResult. rewrite get_set_same. cbn [fst snd]. auto.
Qed.

(** C6 at two different job texts of 55 characters that start with
    [p], from the empty cache: the second call returns the keywords of
    the first text. *)
Lemma colliding_texts_share_entry_witness :
  sampleJobText <> collidingJobText /\
  (getCacheKey sampleJobText = getCacheKey collidingJobText /\
   let first := turboExtractKeywords NoExtractor [] sampleJobText 35 in
   let second := turboExtractKeywords NoExtractor (fst first) collidingJobText 35 in
   snd second = snd first /\
   fst second = fst first /\
   (50 <= length sampleJobText ->
    JSMap.get (fst first) (getCacheKey collidingJobText) = Some (snd first))).
Proof.
  split; [discriminate|].
  apply (colliding_texts_share_entry NoExtractor [] 35
           sampleJobText collidingJobText); reflexivity.
Defined.

(* ================================================================== *)
(** ** Substrings                                                      *)
(* ================================================================== *)

Section Substrings.

Lemma startsWith_iff (s p : jsstring) :
  startsWith s p = true <-> exists r, s = p ++ r.
Proof.
  revert s. induction p as [|b p IH]; intros s; simpl.
  - split; [intros _; now exists s | now destruct s].
  - destruct s as [|a s].
    + split; [discriminate | intros (r & E); discriminate].
    + simpl. rewrite andb_true_iff, N.eqb_eq, IH. split.
      * intros (-> & r & ->). now exists r.
      * intros (r & E). injection E as -> ->. split; [reflexivity | now exists r].
Qed.

Lemma includes_iff (s t : jsstring) :
  includes s t = true <-> exists l r, s = l ++ t ++ r.
Proof.
  induction s as [|a s IH]; cbn [includes].
  - rewrite orb_false_r, startsWith_iff. split.
    + intros (r & E). now exists [], r.
    + intros (l & r & E). symmetry in E.
      apply app_eq_nil in E as (-> & E). apply app_eq_nil in E as (-> & ->).
      now exists [].
  - rewrite orb_true_iff, startsWith_iff, IH. split.
    + intros [(r & E) | (l & r & E)].
      * now exists [], r.
      * exists (a :: l), r. now rewrite E.
    + intros (l & r & E). destruct l as [|a' l].
      * left. now exists r.
      * right. injection E as -> ->. now exists l, r.
Qed.

Lemma includes_app_l (s x t : jsstring) :
  includes s t = true -> includes (s ++ x) t = true.
Proof.
  rewrite !includes_iff. intros (l & r & ->).
  exists l, (r ++ x). now rewrite <- !app_assoc.
Qed.

Lemma includes_middle (a s b t : jsstring) :
  includes s t = true -> includes (a ++ s ++ b) t = true.
Proof.
  rewrite !includes_iff. intros (l & r & ->).
  exists (a ++ l), (r ++ b). now rewrite <- !app_assoc.
Qed.

(** Text inserted at a place that [t] cannot straddle (the start, the
    end, or just after a character that [t] does not contain) leaves an
    occurrence of [t] in place. *)
Lemma includes_insert (a x b t : jsstring) :
  includes (a ++ b) t = true ->
  a = [] \/ b = [] \/ (exists a' c, a = a' ++ [c] /\ ~ In c t) ->
  includes (a ++ x ++ b) t = true.
Proof.
  intros H [-> | [-> | (a' & c & -> & Hc)]].
  - simpl in *. apply includes_iff in H as (l & r & ->). apply includes_iff.
    exists (x ++ l), r. now rewrite <- app_assoc.
  - rewrite app_nil_r in *. now apply includes_app_l.
  - apply includes_iff in H as (l & r & E). apply includes_iff.
    apply app_eq_app in E as (m & [(E1 & E2) | (E1 & E2)]).
    + (* the occurrence starts inside [a] *)
      symmetry in E2. apply app_eq_app in E2 as (n & [(E3 & E4) | (E3 & E4)]).
      * (* and ends inside [a] *)
        exists l, (n ++ x ++ b). rewrite E1, E3, <- !app_assoc. reflexivity.
      * (* and ends in [b]: then [m] is empty *)
        induction m as [|d m' _] using rev_ind.
        -- simpl in E3. subst t. rewrite app_nil_r in E1.
           exists (l ++ x), r. rewrite E1, E4, <- !app_assoc. reflexivity.
        -- exfalso. rewrite app_assoc in E1.
           apply app_inj_tail in E1 as (_ & ->).
           apply Hc. rewrite E3. apply in_or_app. left.
           apply in_or_app. right. now left.
    + (* the occurrence lies inside [b] *)
      exists ((a' ++ [c]) ++ x ++ m), r. rewrite E2, <- !app_assoc. reflexivity.
Qed.

Lemma join_includes (sep x : jsstring) (l : list jsstring) :
  In x l -> exists a b, join sep l = a ++ x ++ b.
Proof.
  induction l as [|y l IH]; [easy|].
  intros [-> | Hx].
  - destruct l as [|z l]; [exists [], []; simpl; now rewrite app_nil_r|].
    exists [], (sep ++ join sep (z :: l)). reflexivity.
  - destruct (IH Hx) as (a & b & E).
    destruct l as [|z l]; [easy|].
    exists (y ++ sep ++ a), b.
    change (join sep (y :: z :: l)) with (y ++ sep ++ join sep (z :: l)).
    rewrite E, <- !app_assoc. reflexivity.
Qed.

Lemma toLowerCase_app (a b : jsstring) :
  toLowerCase (a ++ b) = toLowerCase a ++ toLowerCase b.
Proof. apply map_app. Qed.

Lemma toLowerUnit_lineTerminator (c : N) :
  isLineTerminator c = true -> toLowerUnit c = c.
Proof.
  unfold isLineTerminator, toLowerUnit. intros H.
  repeat (apply orb_true_iff in H as [H | H]);
    apply N.eqb_eq in H; now subst.
Qed.

End Substrings.

(* ================================================================== *)
(** ** Where a regular expression matches                              *)
(* ================================================================== *)

Section ExecFacts.

(** [exec] answers with a position of the text at which the pattern
    matches. *)
Lemma execFrom_position (r : regex) :
  forall suf pre i cap,
    execFrom r pre suf = Some (i, cap) ->
    exists pre' suf',
      rev pre ++ suf = rev pre' ++ suf' /\
      i = length pre' /\
      run r pre' suf' None accept = Some cap.
Proof.
  induction suf as [|a suf IH]; intros pre i cap; simpl.
  - destruct (run r pre [] None accept) as [c|] eqn:R; [|discriminate].
    intros [= <- <-]. now exists pre, [].
  - destruct (run r pre (a :: suf) None accept) as [c|] eqn:R.
    + intros [= <- <-]. now exists pre, (a :: suf).
    + intros H. apply IH in H as (pre' & suf' & E & Hi & Hrun).
      exists pre', suf'. split; [|now split].
      rewrite <- E. simpl. now rewrite <- app_assoc.
Qed.

Lemma exec_position (r : regex) (s : jsstring) i cap :
  exec r s = Some (i, cap) ->
  exists pre suf,
    s = rev pre ++ suf /\ i = length pre /\
    run r pre suf None accept = Some cap.
Proof.
  intros H. apply execFrom_position in H as (pre & suf & E & Hi & Hrun).
  now exists pre, suf.
Qed.

(** The two header patterns start with [^]: they match at the start of
    the text or just after a line terminator. *)
Lemma exec_at_line_start (r : regex) (s : jsstring) i cap :
  exec (Bol ;; r) s = Some (i, cap) ->
  firstn i s ++ skipn i s = s /\ length (firstn i s) = i /\
  (firstn i s = [] \/
   exists a c, firstn i s = a ++ [c] /\ isLineTerminator c = true).
Proof.
  intros H. apply exec_position in H as (pre & suf & -> & -> & Hrun).
  assert (F : firstn (length pre) (rev pre ++ suf) = rev pre).
  { rewrite <- (length_rev pre), firstn_app, Nat.sub_diag, firstn_all.
    simpl. apply app_nil_r. }
  rewrite firstn_skipn, F, length_rev. repeat split.
  simpl in Hrun. destruct pre as [|c pre]; [now left|].
  right. exists (rev pre), c. split; [reflexivity|].
  simpl in Hrun. now destruct (isLineTerminator c).
Qed.

End ExecFacts.

(* ================================================================== *)
(** ** The tailoring fallback                                          *)
(* ================================================================== *)

Section Fallback.

Variable cvText : jsstring.
Variable keywords : KeywordSet.

Local Abbreviation missing := (missingKeywords cvText (all keywords)).
Local Abbreviation result := (fastTailorFallback cvText keywords).
Local Abbreviation skillsToAdd := (firstn 15 missing).

Lemma fastTailorFallback_path : FallbackPath cvText keywords.
Proof.
  destruct missing as [|kw rest] eqn:Hm.
  - apply NothingMissing; [assumption | |];
      unfold fastTailorFallback; now rewrite Hm.
  - assert (Hne : missing <> []) by (rewrite Hm; discriminate).
    assert (Hz : (length missing =? 0) = false) by now rewrite Hm.
    clear Hm.
    destruct (exec skillsHeader cvText) as [[index cap]|] eqn:Hs.
    + destruct (indexOf cvText 10%N index) as [insertPos|] eqn:Hi.
      * eapply UnderSkillsHeader; eauto;
          unfold fastTailorFallback; rewrite Hz, Hs, Hi; [|reflexivity].
        cbn [tailoredCV]. unfold slice, sliceFrom.
        now rewrite !Nat.sub_0_r.
      * eapply HeaderOnLastLine; eauto;
          unfold fastTailorFallback; now rewrite Hz, Hs, Hi.
    + destruct (exec educationHeader cvText) as [[index cap]|] eqn:He.
      * eapply BeforeEducation; eauto;
          unfold fastTailorFallback; rewrite Hz, Hs, He; [|reflexivity].
        cbn [tailoredCV]. unfold slice, sliceFrom.
        now rewrite !Nat.sub_0_r.
      * apply AtTheEnd; auto;
          unfold fastTailorFallback; now rewrite Hz, Hs, He.
Qed.

Lemma statsTotal_counts_injected :
  statsTotal result = length (injectedKeywords result).
Proof.
  unfold fastTailorFallback.
  destruct (length (missingKeywords cvText (all keywords)) =? 0); [reflexivity|].
  now destruct (match exec skillsHeader cvText with Some _ => _ | None => _ end).
Qed.

End Fallback.

(** C10.  Whatever the CV text and the keyword set, one call of
    [fastTailorFallback] injects at most 15 keywords: the list of
    injected keywords is empty or is the first 15 (or all, when fewer)
    of the missing keywords, in their order; the others are left out.
    The count the result reports is the length of that list. *)
Theorem fallback_injects_at_most_fifteen :
  forall (cvText : jsstring) (keywords : KeywordSet),
    let r := fastTailorFallback cvText keywords in
    length (injectedKeywords r) <= 15 /\
    (injectedKeywords r = [] \/
     injectedKeywords r = firstn 15 (missingKeywords cvText (all keywords))) /\
    statsTotal r = length (injectedKeywords r).
Proof.
  intros cvText keywords r. subst r.
  split; [|split; [|apply statsTotal_counts_injected]];
    destruct (fastTailorFallback_path cvText keywords)
      as [? ? H | ? ? ? ? ? ? H | ? ? ? ? ? ? ? H | ? ? ? ? ? ? H | ? ? ? ? H];
    rewrite H; auto using firstn_le_length; cbn [length]; lia.
Qed.

(** C9, refuted as stated: a CV without a skills header and one missing
    keyword.  The fallback returns another text and reports the
    keyword as injected. *)
Lemma no_skills_header_still_injects :
  let r := fastTailorFallback plainCV (keywordsOf [str "python"]) in
  exec skillsHeader plainCV = None /\
  missingKeywords plainCV [str "python"] <> [] /\
  tailoredCV r <> plainCV /\
  injectedKeywords r = [str "python"] /\
  injectedKeywords r <> [].
Proof.
  vm_compute. repeat split; discriminate.
Qed.

(** C9, amended.  For a CV and keywords of ASCII characters: when the
    CV has no skills header and some keyword is missing, the fallback
    does not return the text unchanged: it injects the first 15 missing
    keywords (at least one) by adding a new section, a line [SKILLS]
    and the keywords joined by [, ], before the education header when
    there is one and at the end of the text otherwise; the rest of the
    text is kept as it is. *)
Theorem fallback_without_skills_header_adds_section :
  forall (cvText : jsstring) (keywords : KeywordSet),
    isAscii cvText = true ->
    forallb isAscii (all keywords) = true ->
    exec skillsHeader cvText = None ->
    missingKeywords cvText (all keywords) <> [] ->
    let r := fastTailorFallback cvText keywords in
    let injected := firstn 15 (missingKeywords cvText (all keywords)) in
    let newSkillsSection :=
      NL ++ str "SKILLS" ++ NL ++ join (str ", ") injected ++ NL ++ NL in
    injectedKeywords r = injected /\
    injected <> [] /\
    (exists before after,
        cvText = before ++ after /\
        tailoredCV r = before ++ newSkillsSection ++ after /\
        match exec educationHeader cvText with
        | Some (index, _) => length before = index
        | None => after = []
        end) /\
    tailoredCV r <> cvText.
Proof.
  intros cvText keywords _ _ Hs Hm r injected newSkillsSection.
  assert (Hinj : injected <> []).
  { unfold injected. destruct (missingKeywords cvText (all keywords));
      [congruence | discriminate]. }
  assert (Hlen : forall a b, a ++ newSkillsSection ++ b <> a ++ b).
  { intros a b E. apply (f_equal (@length N)) in E.
    unfold newSkillsSection in E. rewrite !length_app in E. simpl in E. lia. }
  destruct (fastTailorFallback_path cvText keywords)
    as [H0 | ? ? _ H1 | ? ? ? _ H1 | index cap _ _ He Ht Hi | _ _ He Ht Hi];
    try congruence.
  - destruct (exec_at_line_start _ _ _ _ He) as (Hcut & Hidx & _).
    repeat split; auto.
    + exists (firstn index cvText), (skipn index cvText).
      rewrite He. repeat split; auto.
    + unfold r. rewrite Ht. rewrite <- Hcut at 4. apply Hlen.
  - repeat split; auto.
    + exists cvText, []. rewrite He, !app_nil_r. repeat split; auto.
    + unfold r. rewrite Ht. intros E.
      apply (Hlen cvText []). now rewrite !app_nil_r.
Qed.

(** C9 amended, at a CV with an education header: the section goes
    before that header. *)
Lemma fallback_without_skills_header_adds_section_witness :
  let r := fastTailorFallback educationCV (keywordsOf fourKeywords) in
  let injected := firstn 15 (missingKeywords educationCV fourKeywords) in
  let newSkillsSection :=
    NL ++ str "SKILLS" ++ NL ++ join (str ", ") injected ++ NL ++ NL in
  injectedKeywords r = injected /\
  injected <> [] /\
  (exists before after,
      educationCV = before ++ after /\
      tailoredCV r = before ++ newSkillsSection ++ after /\
      match exec educationHeader educationCV with
      | Some (index, _) => length before = index
      | None => after = []
      end) /\
  tailoredCV r <> educationCV.
Proof.
  apply (fallback_without_skills_header_adds_section
           educationCV (keywordsOf fourKeywords)).
  - vm_compute. reflexivity.
  - vm_compute. reflexivity.
  - vm_compute. reflexivity.
  - vm_compute. discriminate.
Defined.

(* ================================================================== *)
(** ** A second pass of the fallback                                   *)
(* ================================================================== *)

Section SecondPass.

Lemma firstn_exact {A} (x b : list A) : firstn (length x) (x ++ b) = x.
Proof. induction x; simpl; congruence. Qed.

Lemma indexOfAux_spec (c : N) (s : jsstring) :
  forall i p, indexOfAux c s i = Some p ->
              exists a b, s = a ++ c :: b /\ p = i + length a.
Proof.
  induction s as [|x s IH]; intros i p; simpl; [discriminate|].
  destruct (x =? c)%N eqn:E.
  - apply N.eqb_eq in E as ->. intros [= <-].
    exists [], s. split; [reflexivity | simpl; lia].
  - intros H. apply IH in H as (a & b & -> & ->).
    exists (x :: a), b. split; [reflexivity | simpl; lia].
Qed.

(** [indexOf] cuts the text just after the character it found. *)
Lemma indexOf_cut (s : jsstring) (c : N) (from p : nat) :
  indexOf s c from = Some p ->
  exists a, firstn (p + 1) s = a ++ [c] /\
            firstn (p + 1) s ++ skipn (p + 1) s = s.
Proof.
  unfold indexOf. intros H.
  apply indexOfAux_spec in H as (a & b & E & ->).
  assert (Hfrom : length (firstn from s) = from).
  { apply firstn_length_le.
    assert (length (skipn from s) <> 0) by (rewrite E, length_app; simpl; lia).
    rewrite length_skipn in *. lia. }
  exists (firstn from s ++ a). split; [|apply firstn_skipn].
  assert (Es : s = ((firstn from s ++ a) ++ [c]) ++ b).
  { rewrite <- (firstn_skipn from s) at 1. rewrite E, <- !app_assoc.
    reflexivity. }
  rewrite Es at 1.
  replace (from + length a + 1) with (length ((firstn from s ++ a) ++ [c]))
    by (rewrite !length_app, Hfrom; simpl; lia).
  apply firstn_exact.
Qed.

Lemma noLineTerminator_notin (s : jsstring) (c : N) :
  noLineTerminator s = true -> isLineTerminator c = true -> ~ In c s.
Proof.
  intros Hs Hc Hin. unfold noLineTerminator in Hs.
  rewrite forallb_forall in Hs. apply Hs in Hin. now rewrite Hc in Hin.
Qed.

(** An occurrence in the text is an occurrence in its lower case. *)
Lemma includes_lower (l kw r : jsstring) :
  includes (toLowerCase (l ++ kw ++ r)) (toLowerCase kw) = true.
Proof.
  apply includes_iff. exists (toLowerCase l), (toLowerCase r).
  now rewrite !toLowerCase_app.
Qed.

(** Inserting text after a line terminator, or at the start, keeps the
    keywords found before, as long as they hold no line terminator. *)
Lemma includes_lower_insert (a x b kw : jsstring) :
  noLineTerminator (toLowerCase kw) = true ->
  a = [] \/ b = [] \/
  (exists a' c, a = a' ++ [c] /\ isLineTerminator c = true) ->
  includes (toLowerCase (a ++ b)) (toLowerCase kw) = true ->
  includes (toLowerCase (a ++ x ++ b)) (toLowerCase kw) = true.
Proof.
  intros Hkw Ha H. rewrite !toLowerCase_app in *.
  apply includes_insert; [assumption|].
  destruct Ha as [-> | [-> | (a' & c & -> & Hc)]];
    [now left | right; now left |].
  right. right. exists (toLowerCase a'), c. split.
  - rewrite toLowerCase_app. simpl. now rewrite toLowerUnit_lineTerminator.
  - now apply noLineTerminator_notin.
Qed.





End SecondPass.




(* ================================================================== *)
(** ** The clause a bullet gains                                       *)
(* ================================================================== *)

Section BulletClause.

Lemma splitOn_single (p : N -> bool) (s : jsstring) :
  forallb (fun c => negb (p c)) s = true -> splitOn p s = [s].
Proof.
  induction s as [|a s IH]; simpl; [reflexivity|].
  intros H. apply andb_true_iff in H as (Ha & Hs).
  apply negb_true_iff in Ha. now rewrite Ha, IH.
Qed.

Lemma dropWhile_length (p : N -> bool) (s : jsstring) :
  length (dropWhile p s) <= length s.
Proof.
  induction s as [|a s IH]; simpl; [lia|]. destruct (p a); simpl; lia.
Qed.

Lemma dropWhile_fixed (p : N -> bool) (a : N) (s : jsstring) :
  dropWhile p (a :: s) = a :: s -> p a = false.
Proof.
  simpl. destruct (p a); [|reflexivity]. intros E.
  pose proof (dropWhile_length p s) as H. rewrite E in H. simpl in H. lia.
Qed.

Lemma dropWhile_head (p : N -> bool) (a : N) (s t : jsstring) :
  p a = false -> dropWhile p ((a :: s) ++ t) = (a :: s) ++ t.
Proof. intros H. simpl. now rewrite H. Qed.

(** A line [- content], where [content] has no white space at either
    end, is a bullet whose content is [content]. *)
Lemma bullet_line_content (content : jsstring) :
  trimStart content = content -> trimEnd content = content ->
  let trimmed := trim (str "- " ++ content) in
  isBullet trimmed = true /\ stripGlyph trimmed = content.
Proof.
  intros Hs He. cbv zeta. unfold trim.
  change (trimStart (str "- " ++ content)) with (str "- " ++ content).
  unfold trimEnd in *. rewrite rev_app_distr.
  change (rev (str "- ")) with [32%N; 45%N].
  apply (f_equal (@rev N)) in He. rewrite rev_involutive in He.
  destruct (rev content) as [|c r] eqn:Er.
  - apply (f_equal (@rev N)) in Er. rewrite rev_involutive in Er. subst content.
    now vm_compute.
  - apply dropWhile_fixed in He.
    rewrite dropWhile_head by assumption.
    rewrite <- Er. change [32%N; 45%N] with (rev (str "- ")).
    rewrite <- rev_app_distr, rev_involutive.
    split; [reflexivity|].
    change (stripGlyph (str "- " ++ content)) with (dropWhile isSpace content).
    exact Hs.
Qed.

(** The keywords the [while] loop pushes do not occur in the bullet. *)
Lemma selectKeywords_fresh bulletLower limit rest :
  forall st toAdd st' out,
    selectKeywords bulletLower limit rest st toAdd = (st', out) ->
    Forall (fun kw => includes bulletLower (toLowerCase kw) = false) toAdd ->
    Forall (fun kw => includes bulletLower (toLowerCase kw) = false) out.
Proof.
  induction rest as [|kw rest IH]; intros st toAdd st' out; simpl.
  - now intros [= <- <-].
  - destruct (length toAdd <? limit); [|now intros [= <- <-]].
    destruct (includes bulletLower (toLowerCase kw)) eqn:Hi; simpl.
    + intros H Hf. eapply IH; eauto.
    + destruct (has _ _); simpl; intros H Hf.
      * eapply IH; eauto.
      * eapply IH; [exact H|]. apply Forall_app. split; auto.
Qed.

(** The line one call of the callback returns. *)
Lemma formatLine_clause keywords st line st' out toAdd :
  formatLine keywords st line = (st', (out, toAdd)) ->
  if isBullet (trim line) then
    let content := stripGlyph (trim line) in
    Forall (fun kw => includes (toLowerCase content) (toLowerCase kw) = false)
           toAdd /\
    out = str "-  " ++
          match toAdd with
          | [] => content
          | _ :: _ =>
              if endsWith content (str ".") then
                removelast content ++ str ", leveraging " ++
                join (str " and ") toAdd ++ str "."
              else content ++ str " utilizing " ++ join (str " and ") toAdd
          end
  else out = line /\ toAdd = [].
Proof.
  unfold formatLine.
  destruct (isBullet (trim line)); [|now intros [= _ <- <-]].
  destruct (_ && _).
  - destruct (selectKeywords _ _ _ _ _) as [st1 toAdd1] eqn:Hsel.
    intros [= _ <- <-]. cbv zeta. split.
    + eapply selectKeywords_fresh; [exact Hsel | constructor].
    + unfold weave. now destruct toAdd1.
  - intros [= _ <- <-]. cbv zeta. split; [constructor | reflexivity].
Qed.

End BulletClause.

(** C7, refuted as stated: the line produced for the bullet of the
    scenario is not the line of the claim, which has one space after
    the dash; the code writes two. *)
Lemma bullet_line_has_two_spaces :
  formatExperienceWithKeywords (str "- Built data pipelines.")
                               [str "Spark"; str "Kafka"]
    <> str "- Built data pipelines, leveraging Spark and Kafka." /\
  formatExperienceWithKeywords (str "- Built data pipelines.")
                               [str "Spark"; str "Kafka"]
    = str "-  Built data pipelines, leveraging Spark and Kafka.".
Proof.
  vm_compute. split; [discriminate | reflexivity].
Qed.

(** C7, amended.  For an experience text whose bullets have a content
    of ASCII characters, and keywords of ASCII characters, one pass
    treats every line as follows.  A bullet (a
    line whose first character after white space is a dash, U+2022 or
    an asterisk) is returned as a dash and two spaces followed by its
    content, where the keywords selected for it, at most 2, keywords of
    the list that do not occur in the content, are appended as a
    trailing clause: when the content ends with a period, that period
    is replaced by [, leveraging], the selected keywords joined by
    [ and ], and a period; otherwise [ utilizing] and the selected
    keywords joined by [ and ] are appended; a bullet for which no
    keyword is selected has no clause.  A line that is no bullet is
    returned as it is.  The result is these lines joined by line
    feeds.  For the bullet [- Built data pipelines.] and the keywords
    Spark and Kafka it is the line
    [-  Built data pipelines, leveraging Spark and Kafka.]. *)
Theorem bullet_gains_trailing_clause :
  forall (experienceText : jsstring) (keywords : list jsstring),
    asciiBullets experienceText = true ->
    forallb isAscii keywords = true ->
    let lines := splitOn isNewline experienceText in
    let outs := formattedLines experienceText keywords in
    Forall2
      (fun line out =>
         if isBullet (trim line) then
           let content := stripGlyph (trim line) in
           let selected := snd out in
           length selected <= 2 /\
           incl selected keywords /\
           Forall (fun kw =>
                     includes (toLowerCase content) (toLowerCase kw) = false)
                  selected /\
           fst out =
             str "-  " ++
             match selected with
             | [] => content
             | _ :: _ =>
                 if endsWith content (str ".") then
                   removelast content ++ str ", leveraging " ++
                   join (str " and ") selected ++ str "."
                 else
                   content ++ str " utilizing " ++ join (str " and ") selected
             end
         else out = (line, []))
      lines outs /\
    formatExperienceWithKeywords experienceText keywords =
      match experienceText with
      | [] => []
      | _ :: _ => join NL (map fst outs)
      end /\
    formatExperienceWithKeywords (str "- Built data pipelines.")
                                 [str "Spark"; str "Kafka"]
      = str "-  Built data pipelines, leveraging Spark and Kafka.".
Proof.
  intros experienceText keywords _ _ lines outs.
  split; [|split; [now destruct experienceText | now vm_compute]].
  unfold outs, formattedLines. fold lines.
  generalize (mkInjectState 0 []). induction lines as [|line lines' IH];
    intros st; simpl; [constructor|].
  destruct (formatLine keywords st line) as [st' [out toAdd]] eqn:F.
  constructor; [|apply IH].
  pose proof (formatLine_spec keywords st line st' out toAdd F)
    as (Hlen & Hin & _).
  apply formatLine_clause in F.
  destruct (isBullet (trim line)).
  - cbv zeta in *. destruct F as (Hfresh & ->). cbn [fst snd].
    repeat split; auto.
  - now destruct F as (-> & ->).
Qed.

(** C7 amended, at an experience section with a heading and three
    bullets. *)
Lemma bullet_gains_trailing_clause_witness :
  let lines := splitOn isNewline sampleExperience in
  let outs := formattedLines sampleExperience threeKeywords in
  Forall2
    (fun line out =>
       if isBullet (trim line) then
         let content := stripGlyph (trim line) in
         let selected := snd out in
         length selected <= 2 /\
         incl selected threeKeywords /\
         Forall (fun kw =>
                   includes (toLowerCase content) (toLowerCase kw) = false)
                selected /\
         fst out =
           str "-  " ++
           match selected with
           | [] => content
           | _ :: _ =>
               if endsWith content (str ".") then
                 removelast content ++ str ", leveraging " ++
                 join (str " and ") selected ++ str "."
               else
                 content ++ str " utilizing " ++ join (str " and ") selected
           end
       else out = (line, []))
    lines outs /\
  formatExperienceWithKeywords sampleExperience threeKeywords =
    join NL (map fst outs) /\
  formatExperienceWithKeywords (str "- Built data pipelines.")
                               [str "Spark"; str "Kafka"]
    = str "-  Built data pipelines, leveraging Spark and Kafka.".
Proof.
  apply (bullet_gains_trailing_clause sampleExperience threeKeywords);
    vm_compute; reflexivity.
Defined.

(* ================================================================== *)
(** ** Skills consolidation                                            *)
(* ================================================================== *)

Section Skills.

Lemma toLowerUnit_idempotent (c : N) :
  toLowerUnit (toLowerUnit c) = toLowerUnit c.
Proof.
  unfold toLowerUnit.
  destruct ((65 <=? c) && (c <=? 90))%N eqn:E; [|now rewrite E].
  apply andb_true_iff in E as (E1 & E2).
  apply N.leb_le in E1, E2.
  destruct ((65 <=? c + 32) && (c + 32 <=? 90))%N eqn:E'; [|reflexivity].
  apply andb_true_iff in E' as (_ & E'). apply N.leb_le in E'. lia.
Qed.

Lemma toLowerCase_idempotent (s : jsstring) :
  toLowerCase (toLowerCase s) = toLowerCase s.
Proof.
  unfold toLowerCase. rewrite map_map. apply map_ext.
  intros c. apply toLowerUnit_idempotent.
Qed.

(** The spelling chosen for a keyword is the keyword, up to case: the
    first entry of the table equal to it up to case, or its lower
    case when there is none. *)
Lemma casing_spec (kw : jsstring) :
  toLowerCase (casing kw) = toLowerCase kw /\
  ((In (casing kw) properNouns) \/
   (casing kw = toLowerCase kw /\
    Forall (fun p => toLowerCase p <> toLowerCase kw) properNouns)).
Proof.
  unfold casing.
  destruct (find _ properNouns) as [p|] eqn:F.
  - apply find_some in F as (Hin & E). apply jseqb_true in E. auto.
  - split; [apply toLowerCase_idempotent|]. right. split; [reflexivity|].
    apply Forall_forall. intros p Hp E.
    apply (find_none _ _ F) in Hp. cbv beta in Hp.
    apply jseqb_true in E. congruence.
Qed.

Lemma hasIt_iff (existingSkills : list jsstring) (kw : jsstring) :
  existsb (fun s => jseqb (toLowerCase s) (toLowerCase kw)) existingSkills = true
  <-> In (toLowerCase kw) (map toLowerCase existingSkills).
Proof.
  rewrite existsb_exists, in_map_iff. split.
  - intros (s & Hs & E). apply jseqb_true in E. now exists s.
  - intros (s & E & Hs). exists s. split; [assumption | now apply jseqb_true].
Qed.

Lemma addKeyword_spec (existingSkills : list jsstring) (kw : jsstring) :
  (In (toLowerCase kw) (map toLowerCase existingSkills) /\
   addKeyword existingSkills kw = existingSkills) \/
  (~ In (toLowerCase kw) (map toLowerCase existingSkills) /\
   addKeyword existingSkills kw = existingSkills ++ [casing kw]).
Proof.
  unfold addKeyword.
  destruct (existsb _ existingSkills) eqn:E.
  - left. split; [now apply hasIt_iff | reflexivity].
  - right.
    assert (Hn : ~ In (toLowerCase kw) (map toLowerCase existingSkills)).
    { intros H. apply hasIt_iff in H. congruence. }
    split; [assumption|]. unfold add.
    destruct (has existingSkills (casing kw)) eqn:Hh; [|reflexivity].
    exfalso. apply Hn. apply has_In in Hh.
    destruct (casing_spec kw) as (<- & _). now apply in_map.
Qed.

Lemma fold_addKeyword (keywords : list jsstring) :
  forall existingSkills,
  exists added,
    fold_left addKeyword keywords existingSkills = existingSkills ++ added /\
    NoDup (map toLowerCase added) /\
    Forall (fun a => ~ In (toLowerCase a) (map toLowerCase existingSkills) /\
                     exists kw, In kw keywords /\ a = casing kw) added /\
    Forall (fun kw => In (toLowerCase kw)
                         (map toLowerCase (existingSkills ++ added))) keywords.
Proof.
  induction keywords as [|kw kws IH]; intros existingSkills.
  - exists []. simpl. rewrite app_nil_r. repeat split; constructor.
  - cbn [fold_left].
    destruct (addKeyword_spec existingSkills kw) as [(Hin & ->) | (Hn & ->)].
    + destruct (IH existingSkills) as (added & E & Hnd & Ha & Hk).
      exists added. repeat split; auto.
      * eapply Forall_impl; [|exact Ha].
        intros a (H1 & k & Hk1 & Hk2). split; [assumption|].
        exists k. split; [now right | assumption].
      * constructor; [|assumption].
        rewrite map_app. apply in_or_app. now left.
    + destruct (IH (existingSkills ++ [casing kw])) as (added & E & Hnd & Ha & Hk).
      destruct (casing_spec kw) as (Hlow & _).
      exists (casing kw :: added).
      rewrite E, <- app_assoc. cbn [app]. repeat split.
      * cbn [map]. constructor; [|assumption].
        intros Hin. apply in_map_iff in Hin as (a & Ea & Hain).
        rewrite Forall_forall in Ha. destruct (Ha a Hain) as (Hna & _).
        apply Hna. rewrite Ea, map_app. apply in_or_app. right. now left.
      * constructor.
        -- split; [now rewrite Hlow|]. exists kw. split; [now left | reflexivity].
        -- eapply Forall_impl; [|exact Ha].
           intros a (H1 & k & Hk1 & Hk2). split.
           ++ intros Hin. apply H1. rewrite map_app. apply in_or_app. now left.
           ++ exists k. split; [now right | assumption].
      * constructor.
        -- rewrite map_app. apply in_or_app. right. left. exact Hlow.
        -- rewrite <- app_assoc in Hk. exact Hk.
Qed.

End Skills.




(* ================================================================== *)
(** ** The fingerprint, exactly                                        *)
(* ================================================================== *)

Section Fingerprint.

Lemma str_inj (a b : String.string) : str a = str b -> a = b.
Proof.
  unfold str. intros H.
  rewrite <- (String.string_of_list_ascii_of_string a),
          <- (String.string_of_list_ascii_of_string b).
  f_equal. revert H.
  generalize (String.list_ascii_of_string a) (String.list_ascii_of_string b).
  induction l as [|x l IH]; intros [|y l']; simpl; try discriminate;
    [reflexivity|].
  intros [= Hxy Hl]. f_equal; [|now apply IH].
  rewrite <- (Ascii.ascii_N_embedding x), <- (Ascii.ascii_N_embedding y).
  now rewrite Hxy.
Qed.

Lemma numToString_inj (m n : N) : numToString m = numToString n -> m = n.
Proof.
  unfold numToString. intros H. apply str_inj in H.
  assert (E : Some (N.to_uint m) = Some (N.to_uint n)).
  { rewrite <- !DecimalString.NilEmpty.usu. now rewrite H. }
  injection E as E.
  rewrite <- (DecimalN.Unsigned.of_to m), <- (DecimalN.Unsigned.of_to n).
  now rewrite E.
Qed.

Lemma numToString_digits (n : N) : forallb isDigit (numToString n) = true.
Proof.
  unfold numToString. generalize (N.to_uint n).
  induction u; simpl; auto.
Qed.

Lemma digits_no_underscore (s : jsstring) :
  forallb isDigit s = true -> ~ In 95%N s.
Proof.
  intros H Hin. rewrite forallb_forall in H. now apply H in Hin.
Qed.

(** Two texts cut at the first occurrence of a separator that neither
    head holds are cut alike. *)
Lemma cut_at_separator (x : N) (a a' r r' : jsstring) :
  ~ In x a -> ~ In x a' -> a ++ x :: r = a' ++ x :: r' -> a = a' /\ r = r'.
Proof.
  revert a'. induction a as [|c a IH]; intros [|c' a'] Ha Ha' E; simpl in *.
  - injection E as <-. now split.
  - injection E as -> _. exfalso. apply Ha'. now left.
  - injection E as -> _. exfalso. apply Ha. now left.
  - injection E as -> E. destruct (IH a') as (-> & ->); auto.
Qed.

Lemma charCodeAt0_inj (t1 t2 : jsstring) :
  charCodeAt0 t1 = charCodeAt0 t2 -> hd_error t1 = hd_error t2.
Proof.
  destruct t1 as [|c1 t1], t2 as [|c2 t2]; simpl; intros H.
  - reflexivity.
  - exfalso. pose proof (numToString_digits c2) as D.
    rewrite <- H in D. discriminate.
  - exfalso. pose proof (numToString_digits c1) as D.
    rewrite H in D. discriminate.
  - apply numToString_inj in H. now subst.
Qed.

End Fingerprint.

(** X1.  Two texts have the same cache key exactly when they have the
    same length and the same first character (or are both empty): the
    key tells nothing else about the text. *)
Theorem cache_key_exact :
  forall t1 t2 : jsstring,
    getCacheKey t1 = getCacheKey t2 <->
    length t1 = length t2 /\ hd_error t1 = hd_error t2.
Proof.
  intros t1 t2. split.
  - unfold getCacheKey. intros H.
    apply cut_at_separator in H as (_ & H);
      try (apply digits_no_underscore, numToString_digits).
    apply cut_at_separator in H as (Hlen & Hc);
      try (apply digits_no_underscore, numToString_digits).
    split; [|now apply charCodeAt0_inj].
    apply numToString_inj in Hlen. now apply Nat2N.inj.
  - intros (Hlen & Hhd). apply getCacheKey_collision; auto.
    now rewrite !slice_prefix_length, Hlen.
Qed.

(* ================================================================== *)
(** ** The cache, from any state                                       *)
(* ================================================================== *)

Section CacheInvariant.

Variable env : Extractors.
Variable maxKeywords : nat.

Lemma keys_delete_head {V} (m : JSMap.t V) :
  NoDup (JSMap.keys m) -> NoDup (JSMap.keys (tl m)).
Proof.
  destruct m as [|[k v] m]; simpl; [auto|]. now inversion 1.
Qed.

Lemma get_tl {V} (m : JSMap.t V) (k : jsstring) :
  hd_error (JSMap.keys m) <> Some k -> JSMap.get (tl m) k = JSMap.get m k.
Proof.
  destruct m as [|[k' v] m]; simpl; [reflexivity|].
  intros H. destruct (jseq_dec k k'); [subst; congruence | reflexivity].
Qed.

End CacheInvariant.

(** X2.  One call of [turboExtractKeywords], from any cache whose keys
    are distinct: the keys stay distinct; the size does not pass 50 if
    it did not before; the entry of any other key than the text's, the
    oldest key apart, is what it was; and a text long enough to be
    extracted is cached afterwards with the set returned. *)
Theorem cache_step_keeps_other_entries :
  forall (env : Extractors) (keywordCache : Cache) (text : jsstring)
         (maxKeywords : nat) (k : jsstring),
    NoDup (JSMap.keys keywordCache) ->
    k <> getCacheKey text ->
    hd_error (JSMap.keys keywordCache) <> Some k ->
    let after := turboExtractKeywords env keywordCache text maxKeywords in
    NoDup (JSMap.keys (fst after)) /\
    JSMap.get (fst after) k = JSMap.get keywordCache k /\
    (JSMap.size keywordCache <= MAX_CACHE_SIZE ->
     JSMap.size (fst after) <= MAX_CACHE_SIZE) /\
    (50 <= length text ->
     JSMap.get (fst after) (getCacheKey text) = Some (snd after)).
Proof.
  intros env c text maxKeywords k Hnd Hk Hhd after. subst after.
  split; [|split; [|split]].
  - unfold turboExtractKeywords.
    destruct (length text <? 50); [assumption|].
    destruct (JSMap.get c (getCacheKey text)); [assumption|].
    cbn [fst]. rewrite cacheResult_eq. apply keys_set_NoDup.
    destruct (MAX_CACHE_SIZE <=? JSMap.size c);
      [now apply keys_delete_head | assumption].
  - unfold turboExtractKeywords.
    destruct (length text <? 50); [reflexivity|].
    destruct (JSMap.get c (getCacheKey text)); [reflexivity|].
    cbn [fst]. rewrite cacheResult_eq, get_set_other by congruence.
    destruct (MAX_CACHE_SIZE <=? JSMap.size c);
      [now apply get_tl | reflexivity].
  - apply size_step.
  - intros Hlen. unfold turboExtractKeywords.
    destruct (length text <? 50) eqn:E; [apply Nat.ltb_lt in E; lia|].
    destruct (JSMap.get c (getCacheKey text)) eqn:G; [exact G|].
    cbn [fst snd]. unfold cacheResult. apply get_set_same.
Qed.

(** X2 at a cache of two entries, the key of the second entry and a
    third text. *)
Lemma cache_step_keeps_other_entries_witness :
  let k := getCacheKey (repeat 97%N 51) in
  let after := turboExtractKeywords NoExtractor twoEntryCache sampleJobText 35 in
  NoDup (JSMap.keys (fst after)) /\
  JSMap.get (fst after) k = JSMap.get twoEntryCache k /\
  (JSMap.size twoEntryCache <= MAX_CACHE_SIZE ->
   JSMap.size (fst after) <= MAX_CACHE_SIZE) /\
  (50 <= length sampleJobText ->
   JSMap.get (fst after) (getCacheKey sampleJobText) = Some (snd after)).
Proof.
  apply (cache_step_keeps_other_entries
           NoExtractor twoEntryCache sampleJobText 35
           (getCacheKey (repeat 97%N 51))).
  - apply NoDup_checked. vm_compute. reflexivity.
  - vm_compute. discriminate.
  - vm_compute. discriminate.
Defined.

(* ================================================================== *)
(** ** The keywords of the internal extraction                         *)
(* ================================================================== *)

Section ExtractedKeywords.

Lemma splitRuns_chars (p : N -> bool) (Q : N -> Prop) (s : jsstring) :
  forall cur inSep,
    Forall (fun c => p c = false /\ Q c) cur ->
    Forall Q s ->
    Forall (Forall (fun c => p c = false /\ Q c)) (splitRuns p cur inSep s).
Proof.
  induction s as [|a s IH]; intros cur inSep Hcur Hs; simpl.
  - constructor; [|constructor]. now apply Forall_rev.
  - inversion Hs as [|? ? Ha Hs']; subst.
    destruct (p a) eqn:Pa.
    + destruct inSep.
      * apply IH; auto.
      * constructor; [now apply Forall_rev | apply IH; auto].
    + apply IH; auto.
Qed.

Lemma kept_not_space (c : N) :
  isSpace c = false -> keptChar c = true -> isKeywordChar c = true.
Proof.
  unfold keptChar, isKeywordChar. intros Hs.
  rewrite Hs, orb_false_r. auto.
Qed.

Lemma tokenize_tokens (text : jsstring) :
  Forall (fun w => 3 <= length w /\ forallb isKeywordChar w = true /\
                   has stopWords w = false) (tokenize text).
Proof.
  unfold tokenize. apply Forall_forall. intros w Hw.
  apply filter_In in Hw as (Hin & Hf).
  apply andb_true_iff in Hf as (Hlen & Hstop).
  apply Nat.leb_le in Hlen. apply negb_true_iff in Hstop.
  repeat split; auto.
  assert (H : Forall (Forall (fun c => isSpace c = false /\ keptChar c = true))
                     (splitWhitespace (stripOther (toLowerCase text)))).
  { apply splitRuns_chars; [constructor|].
    unfold stripOther. apply Forall_forall. intros c Hc.
    apply in_map_iff in Hc as (d & <- & _).
    destruct (keptChar d) eqn:E; [assumption | reflexivity]. }
  rewrite Forall_forall in H. specialize (H w Hin).
  apply forallb_forall. intros c Hc. rewrite Forall_forall in H.
  destruct (H c Hc). now apply kept_not_space.
Qed.

Lemma keys_frequencies (words : list jsstring) :
  forall m : JSMap.t nat,
    incl (JSMap.keys (fold_left countWord words m)) (JSMap.keys m ++ words).
Proof.
  induction words as [|w ws IH]; intros m; simpl.
  - rewrite app_nil_r. apply incl_refl.
  - intros k Hk. apply IH in Hk. unfold countWord in Hk.
    rewrite keys_set in Hk. apply in_app_or in Hk as [Hk | Hk].
    + destruct (in_dec jseq_dec w (JSMap.keys m)).
      * apply in_or_app. now left.
      * apply in_app_or in Hk as [Hk | [<- | []]]; apply in_or_app;
          [now left | right; now left].
    + apply in_or_app. right. now right.
Qed.

Lemma table_keys_are_tokens (text : jsstring) :
  incl (JSMap.keys (frequencies (tokenize text))) (tokenize text).
Proof. intros k Hk. now apply keys_frequencies in Hk. Qed.

Lemma firstn_incl {A} (n : nat) (l : list A) : incl (firstn n l) l.
Proof.
  intros x Hx. rewrite <- (firstn_skipn n l). apply in_or_app. now left.
Qed.

Lemma ranked_are_tokens (text : jsstring) (maxKeywords : nat) :
  incl (all (ultraFastExtraction text maxKeywords)) (tokenize text).
Proof.
  intros kw Hkw. apply table_keys_are_tokens.
  cbn [all ultraFastExtraction] in Hkw. unfold slice in Hkw.
  apply firstn_incl in Hkw. cbn [skipn] in Hkw.
  eapply Permutation_in; [|exact Hkw].
  apply Permutation_map, sortDesc_perm.
Qed.

End ExtractedKeywords.

(** X3.  Every keyword of the internal extraction is a token of at
    least 3 characters, each of them a lower-case letter, a digit, a
    hyphen or a slash, and is no stop word; no keyword is repeated; and
    there are at most [maxKeywords] of them. *)
Theorem extracted_keywords_are_tokens :
  forall (text : jsstring) (maxKeywords : nat),
    let r := ultraFastExtraction text maxKeywords in
    length (all r) <= maxKeywords /\
    NoDup (all r) /\
    Forall (fun kw => 3 <= length kw /\
                      forallb isKeywordChar kw = true /\
                      has stopWords kw = false) (all r).
Proof.
  intros text maxKeywords r. subst r. split; [|split].
  - cbn [all ultraFastExtraction]. unfold slice.
    rewrite length_firstn. lia.
  - apply ranked_NoDup.
  - apply Forall_forall. intros kw Hkw.
    apply ranked_are_tokens in Hkw.
    pose proof (tokenize_tokens text) as H. rewrite Forall_forall in H.
    now apply H.
Qed.

(** X4.  Four entries of the allowlist are never counted, whatever the
    text: the two entries of two words (a token holds no white space)
    and the two entries of two letters (a token has three characters at
    least); so they are never boosted and never extracted. *)
Theorem dead_allowlist_entries :
  forall (text : jsstring) (maxKeywords : nat),
    Forall (fun entry =>
              In entry techBoost /\
              JSMap.get (frequencies (tokenize text)) entry = None /\
              ~ In entry (all (ultraFastExtraction text maxKeywords)))
           (map str ["machine learning"; "deep learning"; "ai"; "ml"]%string).
Proof.
  intros text maxKeywords.
  assert (H : forall entry,
             (length entry <? 3) || negb (forallb isKeywordChar entry) = true ->
             In entry techBoost ->
             In entry techBoost /\
             JSMap.get (frequencies (tokenize text)) entry = None /\
             ~ In entry (all (ultraFastExtraction text maxKeywords))).
  { intros entry Hbad Hboost.
    assert (Hn : ~ In entry (tokenize text)).
    { intros Hin.
      pose proof (tokenize_tokens text) as T. rewrite Forall_forall in T.
      destruct (T entry Hin) as (Hlen & Hch & _).
      apply orb_true_iff in Hbad as [Hbad | Hbad].
      - apply Nat.ltb_lt in Hbad. lia.
      - rewrite Hch in Hbad. discriminate. }
    split; [assumption|]. split.
    - apply get_None. intros Hin. now apply Hn, table_keys_are_tokens.
    - intros Hin. now apply Hn, (ranked_are_tokens text maxKeywords). }
  do 4 (constructor;
        [apply H; [vm_compute; reflexivity
                  | apply has_In; vm_compute; reflexivity]|]).
  constructor.
Qed.

(* ================================================================== *)
(** ** The order of the ranking                                        *)
(* ================================================================== *)

Section RankingOrder.

Lemma insertDesc_sorted x l :
  StronglySorted valueGe l -> StronglySorted valueGe (insertDesc x l).
Proof.
  induction l as [|y l IH]; intros Hs; simpl.
  - repeat constructor.
  - apply StronglySorted_inv in Hs as (Hs & Hy).
    destruct (snd x <? snd y) eqn:E.
    + apply Nat.ltb_lt in E. constructor; [now apply IH|].
      apply (Permutation_Forall (Permutation_sym (insertDesc_perm x l))).
      constructor; [unfold valueGe; lia | assumption].
    + apply Nat.ltb_ge in E. constructor.
      * now constructor.
      * constructor; [exact E|].
        eapply Forall_impl; [|exact Hy].
        unfold valueGe. intros z Hz. lia.
Qed.

Lemma sortDesc_sorted l : StronglySorted valueGe (sortDesc l).
Proof.
  induction l as [|x l IH]; simpl; [constructor | now apply insertDesc_sorted].
Qed.

(** The entries of one value keep their order. *)
Lemma insertDesc_stable v x l :
  filter (fun e => snd e =? v) (insertDesc x l) =
  filter (fun e => snd e =? v) (x :: l).
Proof.
  induction l as [|y l IH]; [reflexivity|].
  cbn [insertDesc]. destruct (snd x <? snd y) eqn:E; [|reflexivity].
  apply Nat.ltb_lt in E. cbn [filter] in *. rewrite IH.
  destruct (snd x =? v) eqn:Ex; [|reflexivity].
  apply Nat.eqb_eq in Ex.
  destruct (snd y =? v) eqn:Ey; [|reflexivity].
  apply Nat.eqb_eq in Ey. lia.
Qed.

Lemma sortDesc_stable v l :
  filter (fun e => snd e =? v) (sortDesc l) = filter (fun e => snd e =? v) l.
Proof.
  induction l as [|x l IH]; [reflexivity|].
  cbn [sortDesc]. rewrite insertDesc_stable. cbn [filter]. now rewrite IH.
Qed.

End RankingOrder.

(** X5.  For a text of ASCII characters whose frequency table holds
    values below [2^53] only (the range in which the numbers of the
    language are these integers), the keywords of the internal
    extraction are the words of the frequency table, each once, in
    non-increasing order of the value the table holds for them, words
    of equal value in the order of the table (the order of first
    encounter), cut at [maxKeywords]. *)
Theorem ranking_is_a_stable_descending_sort :
  forall (text : jsstring) (maxKeywords : nat),
    isAscii text = true ->
    forallb (fun e => (N.of_nat (snd e) <? 2 ^ 53)%N)
            (frequencies (tokenize text)) = true ->
    let freq := frequencies (tokenize text) in
    exists ranked,
      all (ultraFastExtraction text maxKeywords)
        = firstn maxKeywords (map fst ranked) /\
      Permutation ranked freq /\
      StronglySorted valueGe ranked /\
      forall v, filter (fun e => snd e =? v) ranked
                = filter (fun e => snd e =? v) freq.
Proof.
  intros text maxKeywords _ _ freq. exists (sortDesc freq).
  split; [|split; [|split]].
  - cbn [all ultraFastExtraction]. unfold slice. now rewrite Nat.sub_0_r.
  - apply sortDesc_perm.
  - apply sortDesc_sorted.
  - intros v. apply sortDesc_stable.
Qed.

(** X5 at the sample job text, whose table holds 12 for [python] and
    7 for [alpha]. *)
Lemma ranking_is_a_stable_descending_sort_witness :
  let freq := frequencies (tokenize sampleJobText) in
  exists ranked,
    all (ultraFastExtraction sampleJobText 35)
      = firstn 35 (map fst ranked) /\
    Permutation ranked freq /\
    StronglySorted valueGe ranked /\
    forall v, filter (fun e => snd e =? v) ranked
              = filter (fun e => snd e =? v) freq.
Proof.
  apply (ranking_is_a_stable_descending_sort sampleJobText 35);
    vm_compute; reflexivity.
Defined.

(* ================================================================== *)
(** ** What the fallback does to the text                              *)
(* ================================================================== *)

Section FallbackText.

Lemma indexOfAux_none (c : N) (s : jsstring) :
  forall i, forallb (fun a => negb (a =? c)%N) s = true ->
            indexOfAux c s i = None.
Proof.
  induction s as [|a s IH]; intros i; simpl; [reflexivity|].
  intros H. apply andb_true_iff in H as (Ha & Hs).
  apply negb_true_iff in Ha. rewrite Ha. now apply IH.
Qed.

(** The keywords reported as injected are in the text returned. *)
Lemma injected_in_tailored (cvText : jsstring) (keywords : KeywordSet) :
  let r := fastTailorFallback cvText keywords in
  Forall (fun kw =>
            includes (toLowerCase (tailoredCV r)) (toLowerCase kw) = true)
         (injectedKeywords r).
Proof.
  cbv zeta. apply Forall_forall. intros kw Hkw.
  destruct (fastTailorFallback_path cvText keywords)
    as [_ Ht Hi | ? ? _ _ _ Ht Hi | index cap insertPos Hm _ Hp Ht Hi
        | index cap Hm _ He Ht Hi | Hm _ _ Ht Hi];
    rewrite Hi in Hkw; try contradiction;
    rewrite Ht;
    destruct (join_includes (str ", ") _ _ Hkw) as (u & v & ->).
  - replace (firstn (insertPos + 1) cvText ++
             (NL ++ (u ++ kw ++ v) ++ NL) ++ skipn (insertPos + 1) cvText)
      with ((firstn (insertPos + 1) cvText ++ NL ++ u) ++ kw ++
            (v ++ NL ++ skipn (insertPos + 1) cvText))
      by (rewrite <- !app_assoc; reflexivity).
    apply includes_lower.
  - replace (firstn index cvText ++
             (NL ++ str "SKILLS" ++ NL ++ (u ++ kw ++ v) ++ NL ++ NL) ++
             skipn index cvText)
      with ((firstn index cvText ++ NL ++ str "SKILLS" ++ NL ++ u) ++ kw ++
            (v ++ NL ++ NL ++ skipn index cvText))
      by (rewrite <- !app_assoc; reflexivity).
    apply includes_lower.
  - replace (cvText ++ NL ++ str "SKILLS" ++ NL ++ (u ++ kw ++ v) ++ NL ++ NL)
      with ((cvText ++ NL ++ str "SKILLS" ++ NL ++ u) ++ kw ++ (v ++ NL ++ NL))
      by (rewrite <- !app_assoc; reflexivity).
    apply includes_lower.
Qed.

(** They are among the first 15 missing keywords. *)
Lemma injected_are_missing (cvText : jsstring) (keywords : KeywordSet) :
  incl (injectedKeywords (fastTailorFallback cvText keywords))
       (firstn 15 (missingKeywords cvText (all keywords))).
Proof.
  destruct (fastTailorFallback_path cvText keywords)
    as [_ Ht Hi | ? ? _ _ _ Ht Hi | index cap insertPos Hm _ Hp Ht Hi
        | index cap Hm _ He Ht Hi | Hm _ _ Ht Hi];
    rewrite Hi; auto using incl_refl, incl_nil_l.
Qed.

End FallbackText.

(** X6.  The fallback never removes or rewrites a character of the CV:
    the text it returns is the CV with one piece inserted, and the
    piece is empty exactly when no keyword is injected.  The piece is
    never put inside a line: it goes at the start or at the end of the
    text, or just after a line terminator. *)
Theorem fallback_only_inserts :
  forall (cvText : jsstring) (keywords : KeywordSet),
    let r := fastTailorFallback cvText keywords in
    exists before inserted after,
      cvText = before ++ after /\
      tailoredCV r = before ++ inserted ++ after /\
      (inserted = [] <-> injectedKeywords r = []) /\
      (before = [] \/ after = [] \/
       exists b c, before = b ++ [c] /\ isLineTerminator c = true).
Proof.
  intros cvText keywords r. subst r.
  destruct (fastTailorFallback_path cvText keywords)
    as [_ Ht Hi | ? ? _ _ _ Ht Hi | index cap insertPos Hm _ Hp Ht Hi
        | index cap Hm _ He Ht Hi | Hm _ _ Ht Hi].
  - exists [], [], cvText. rewrite Ht, Hi. repeat split; auto.
  - exists [], [], cvText. rewrite Ht, Hi. repeat split; auto.
  - destruct (indexOf_cut _ _ _ _ Hp) as (a & Ea & Ecut).
    eexists _, _, _. rewrite Ht, Hi. split; [symmetry; exact Ecut|].
    split; [reflexivity|]. split.
    + split; [discriminate|]. intros E. exfalso. apply Hm.
      destruct (missingKeywords cvText (all keywords)); [reflexivity|].
      discriminate.
    + right. right. now exists a, 10%N.
  - destruct (exec_at_line_start _ _ _ _ He) as (Hcut & _ & Hstart).
    eexists _, _, _. rewrite Ht, Hi. split; [symmetry; exact Hcut|].
    split; [reflexivity|]. split.
    + split; [discriminate|]. intros E. exfalso. apply Hm.
      destruct (missingKeywords cvText (all keywords)); [reflexivity|].
      discriminate.
    + destruct Hstart as [E | E]; [now left | right; now right].
  - exists cvText,
      (NL ++ str "SKILLS" ++ NL ++
       join (str ", ") (firstn 15 (missingKeywords cvText (all keywords)))
       ++ NL ++ NL), [].
    rewrite Ht, Hi.
    split; [now rewrite app_nil_r|]. split; [now rewrite app_nil_r|]. split.
    + split; [discriminate|]. intros E. exfalso. apply Hm.
      destruct (missingKeywords cvText (all keywords)); [reflexivity|].
      discriminate.
    + right. now left.
Qed.


(** X8.  The fallback loses no keyword: a keyword without a line
    terminator that is found, up to case, in the CV is found in the
    text returned. *)
Theorem fallback_keeps_found_keywords :
  forall (cvText : jsstring) (keywords : KeywordSet) (kw : jsstring),
    noLineTerminator (toLowerCase kw) = true ->
    includes (toLowerCase cvText) (toLowerCase kw) = true ->
    includes (toLowerCase (tailoredCV (fastTailorFallback cvText keywords)))
             (toLowerCase kw) = true.
Proof.
  intros cvText keywords kw Hkw Hin.
  destruct (fastTailorFallback_path cvText keywords)
    as [_ Ht Hi | ? ? _ _ _ Ht Hi | index cap insertPos Hm _ Hp Ht Hi
        | index cap Hm _ He Ht Hi | Hm _ _ Ht Hi];
    rewrite Ht; try assumption.
  - destruct (indexOf_cut _ _ _ _ Hp) as (a & Ea & Ecut).
    apply includes_lower_insert; [assumption | | now rewrite Ecut].
    right. right. now exists a, 10%N.
  - destruct (exec_at_line_start _ _ _ _ He) as (Hcut & _ & Hstart).
    apply includes_lower_insert; [assumption | | now rewrite Hcut].
    destruct Hstart; [now left | right; now right].
  - rewrite toLowerCase_app. now apply includes_app_l.
Qed.

(** X8 at the resume of the skills scenario: [java] is still found. *)
Lemma fallback_keeps_found_keywords_witness :
  includes
    (toLowerCase (tailoredCV (fastTailorFallback skillsCV (keywordsOf fourKeywords))))
    (toLowerCase (str "Java")) = true.
Proof.
  apply (fallback_keeps_found_keywords skillsCV (keywordsOf fourKeywords)
                                       (str "Java"));
    vm_compute; reflexivity.
Defined.

(** X9.  When the skills header the fallback finds has no line feed
    after it (it is on the last line of the CV), the fallback injects
    nothing and returns the CV as it is, whatever is missing. *)
Theorem header_on_last_line_gets_nothing :
  forall (cvText : jsstring) (keywords : KeywordSet)
         (index : nat) (cap : option jsstring),
    exec skillsHeader cvText = Some (index, cap) ->
    forallb (fun c => negb (isNewline c)) (skipn index cvText) = true ->
    let r := fastTailorFallback cvText keywords in
    tailoredCV r = cvText /\ injectedKeywords r = [] /\ statsTotal r = 0.
Proof.
  intros cvText keywords index cap Hs Hnl r. subst r.
  assert (Hi : indexOf cvText 10%N index = None)
    by (unfold indexOf; now apply indexOfAux_none).
  unfold fastTailorFallback. rewrite Hs, Hi.
  now destruct (length (missingKeywords cvText (all keywords)) =? 0).
Qed.

(** X9 at a CV whose last line is the skills header: four keywords are
    missing and none is injected. *)
Lemma header_on_last_line_gets_nothing_witness :
  let cv := str "Jane Doe" ++ NL ++ str "Skills:" in
  let r := fastTailorFallback cv (keywordsOf fourKeywords) in
  missingKeywords cv fourKeywords = fourKeywords /\
  (tailoredCV r = cv /\ injectedKeywords r = [] /\ statsTotal r = 0).
Proof.
  split; [vm_compute; reflexivity|].
  apply (header_on_last_line_gets_nothing
           (str "Jane Doe" ++ NL ++ str "Skills:") (keywordsOf fourKeywords)
           9 (Some (str "Skills")));
    vm_compute; reflexivity.
Defined.

(* ================================================================== *)
(** ** The pipeline                                                    *)
(* ================================================================== *)

Section PipelineFacts.

Lemma frequencies_nonempty (words : list jsstring) :
  words <> [] -> frequencies words <> [].
Proof.
  destruct words as [|w ws]; [congruence|]. intros _ E.
  pose proof (fold_countWord (w :: ws) w []) as H.
  fold (frequencies (w :: ws)) in H. rewrite E in H.
  cbn [count_occ] in H. destruct (jseq_dec w w); [|congruence].
  simpl in H. discriminate.
Qed.

Lemma frequencies_nil : frequencies [] = [].
Proof. reflexivity. Qed.

Lemma extraction_empty_iff (text : jsstring) (maxKeywords : nat) :
  0 < maxKeywords ->
  (all (ultraFastExtraction text maxKeywords) = [] <-> tokenize text = []).
Proof.
  intros Hmax. cbn [all ultraFastExtraction]. unfold slice.
  rewrite Nat.sub_0_r. cbn [skipn]. split.
  - intros E.
    destruct (tokenize text) as [|w ws] eqn:T; [reflexivity|]. exfalso.
    assert (Hf : frequencies (w :: ws) <> [])
      by (apply frequencies_nonempty; discriminate).
    assert (Hs : sortDesc (frequencies (w :: ws)) <> []).
    { intros E0. apply Hf, Permutation_nil. rewrite <- E0.
      apply sortDesc_perm. }
    destruct (sortDesc (frequencies (w :: ws))) as [|e es]; [congruence|].
    destruct maxKeywords; [lia | discriminate].
  - intros ->. now destruct maxKeywords.
Qed.

Lemma fallback_length (cvText : jsstring) (keywords : KeywordSet) :
  length cvText <= length (tailoredCV (fastTailorFallback cvText keywords)).
Proof.
  destruct (fastTailorFallback_path cvText keywords)
    as [_ Ht Hi | ? ? _ _ _ Ht Hi | index cap insertPos Hm _ Hp Ht Hi
        | index cap Hm _ He Ht Hi | Hm _ _ Ht Hi];
    rewrite Ht; auto.
  - rewrite <- (firstn_skipn (insertPos + 1) cvText) at 1.
    rewrite !length_app. lia.
  - rewrite <- (firstn_skipn index cvText) at 1.
    rewrite !length_app. lia.
  - rewrite length_app. lia.
Qed.

Lemma fallback_injects_few (cvText : jsstring) (keywords : KeywordSet) :
  length (injectedKeywords (fastTailorFallback cvText keywords)) <= 15.
Proof.
  pose proof (injected_are_missing cvText keywords) as H.
  destruct (fastTailorFallback_path cvText keywords)
    as [_ Ht Hi | ? ? _ _ _ Ht Hi | index cap insertPos Hm _ Hp Ht Hi
        | index cap Hm _ He Ht Hi | Hm _ _ Ht Hi];
    rewrite Hi; cbn [length]; try lia; apply firstn_le_length.
Qed.

End PipelineFacts.

(** X10.  With no extractor registered and an empty cache, the pipeline
    fails on a job description of ASCII characters, with the error
    [No keywords extracted], exactly when the description has fewer
    than 50 characters or holds no token (a word of three characters or
    more that is no stop word).  And whatever the collaborators, the
    cache and the text, a description of fewer than 50 characters fails
    and leaves the cache as it was. *)
Theorem pipeline_fails_without_tokens :
  forall (env : Extractors) (tailorers : Tailorers) (keywordCache : Cache)
         (description baseCV : jsstring),
    isAscii description = true ->
    (snd (executeTurboPipeline NoExtractor tailorers [] description baseCV)
       = PipelineFailure (str "No keywords extracted") <->
     length description < 50 \/ tokenize description = []) /\
    (forall text : jsstring,
        executeTurboPipeline env tailorers keywordCache (firstn 49 text)
                             baseCV
        = (keywordCache, PipelineFailure (str "No keywords extracted"))).
Proof.
  intros env tailorers c description baseCV _. split.
  - unfold executeTurboPipeline, turboExtractKeywords.
    destruct (length description <? 50) eqn:E.
    + apply Nat.ltb_lt in E. cbn. tauto.
    + apply Nat.ltb_ge in E. cbn [JSMap.get extractUncached].
      pose proof (extraction_empty_iff description 35 ltac:(lia)) as H.
      destruct (all (ultraFastExtraction description 35)) eqn:A; cbn [snd].
      * split; [intros _; right; now apply H | reflexivity].
      * split; [discriminate|]. intros [Hl | Ht]; [lia|].
        apply H in Ht. discriminate.
  - intros text. unfold executeTurboPipeline, turboExtractKeywords.
    assert (E : (length (firstn 49 text) <? 50) = true).
    { apply Nat.ltb_lt. rewrite length_firstn. lia. }
    now rewrite E.
Qed.

(** X10 at a description of 52 characters that holds stop words only. *)
Lemma pipeline_fails_without_tokens_witness :
  (snd (executeTurboPipeline NoExtractor NoTailorer [] stopWordsOnly plainCV)
     = PipelineFailure (str "No keywords extracted") <->
   length stopWordsOnly < 50 \/ tokenize stopWordsOnly = []) /\
  (forall text : jsstring,
      executeTurboPipeline NoExtractor NoTailorer [] (firstn 49 text) plainCV
      = ([], PipelineFailure (str "No keywords extracted"))).
Proof.
  apply (pipeline_fails_without_tokens
           NoExtractor NoTailorer [] stopWordsOnly plainCV).
  vm_compute. reflexivity.
Defined.

(** X11.  With no tailoring collaborator registered, a pipeline run that
    succeeds returns a non-empty keyword set, injects at most 15
    keywords, each of them a keyword of that set found (up to case) in
    the tailored text, and returns a text at least as long as the base
    CV; on an empty base CV it returns the empty text and injects
    nothing, without statistics. *)
Theorem pipeline_success_is_bounded :
  forall (env : Extractors) (keywordCache : Cache)
         (description baseCV : jsstring),
    match snd (executeTurboPipeline env NoTailorer keywordCache
                                    description baseCV) with
    | PipelineFailure error => error = str "No keywords extracted"
    | PipelineSuccess keywords outcome =>
        all keywords <> [] /\
        length (outInjectedKeywords outcome) <= 15 /\
        Forall (fun kw =>
                  In kw (all keywords) /\
                  includes (toLowerCase (outTailoredCV outcome))
                           (toLowerCase kw) = true)
               (outInjectedKeywords outcome) /\
        length baseCV <= length (outTailoredCV outcome) /\
        match baseCV with
        | [] => outcome = mkTailorOutcome [] [] None
        | _ :: _ =>
            outStatsTotal outcome = Some (length (outInjectedKeywords outcome))
        end
    end.
Proof.
  intros env c description baseCV. unfold executeTurboPipeline.
  destruct (turboExtractKeywords env c description 35) as [c' ks].
  destruct (all ks) as [|k0 krest] eqn:A; cbn [snd]; [reflexivity|].
  split; [rewrite A; discriminate|].
  unfold turboTailorCV. rewrite A.
  destruct baseCV as [|b bs].
  - cbn. repeat split; auto; lia.
  - cbn [outTailoredCV outInjectedKeywords outStatsTotal].
    split; [apply fallback_injects_few|]. split; [|split].
    + pose proof (injected_in_tailored (b :: bs) ks) as Hf.
      pose proof (injected_are_missing (b :: bs) ks) as Hm.
      cbv zeta in Hf. rewrite Forall_forall in Hf.
      apply Forall_forall. intros kw Hkw. split; [|now apply Hf].
      apply Hm, firstn_incl in Hkw. unfold missingKeywords in Hkw.
      apply filter_In in Hkw as (Hin & _). now rewrite A in Hin.
    + apply fallback_length.
    + f_equal. apply (statsTotal_counts_injected (b :: bs) ks).
Qed.

(* ================================================================== *)
(** ** What a match can capture                                        *)
(* ================================================================== *)

Section Captures.

(** The text being matched: every position the matcher visits splits
    it, and every capture is a part of it. *)
Variable text : jsstring.

Local Abbreviation okPos pre suf := (rev pre ++ suf = text).
Local Abbreviation okCap cap :=
  (match cap with Some x => partOf x text | None => True end).

(** Where a continuation is called: at a position of the text reached
    by reading on, with a capture from the text. *)
Local Abbreviation reaches k pre cap res :=
  (exists d suf' cap',
      okPos (d ++ pre) suf' /\ okCap cap' /\
      (cap' = cap \/ cap' <> None) /\
      k (d ++ pre) suf' cap' = Some res).

Lemma litAt_reads (p : jsstring) :
  forall s acc acc' s',
    litAt p s acc = Some (acc', s') ->
    exists d, acc' = d ++ acc /\ s = rev d ++ s'.
Proof.
  induction p as [|b p IH]; intros s acc acc' s'.
  - destruct s; simpl; intros [= <- <-]; now exists [].
  - destruct s as [|a s]; simpl; [discriminate|].
    destruct (toUpperUnit a =? toUpperUnit b)%N; [|discriminate].
    intros H. apply IH in H as (d & -> & ->).
    exists (d ++ [a]). rewrite <- app_assoc, rev_app_distr. now split.
Qed.

Lemma starLoop_reaches (p : N -> bool) (cap : option jsstring) (k : cont) :
  forall suf pre res,
    okPos pre suf -> okCap cap ->
    starLoop p cap k pre suf = Some res ->
    reaches k pre cap res.
Proof.
  induction suf as [|c t IH]; intros pre res Hpos Hcap; simpl.
  - intros H. exists [], [], cap. auto.
  - assert (Hhere : k pre (c :: t) cap = Some res -> reaches k pre cap res)
      by (intros H; exists [], (c :: t), cap; auto).
    destruct (p c); [|exact Hhere].
    destruct (starLoop p cap k (c :: pre) t) as [x|] eqn:E; [|exact Hhere].
    intros [= <-]. apply IH in E as (d & suf' & cap' & H1 & H2 & H3 & H4);
      [|simpl; now rewrite <- app_assoc | assumption].
    exists (d ++ [c]), suf', cap'. rewrite <- app_assoc. auto.
Qed.

Lemma lazyLoop_reaches (p : N -> bool) (cap : option jsstring) (k : cont) :
  forall suf pre res,
    okPos pre suf -> okCap cap ->
    lazyLoop p cap k pre suf = Some res ->
    reaches k pre cap res.
Proof.
  induction suf as [|c t IH]; intros pre res Hpos Hcap; simpl.
  - destruct (k pre [] cap) as [x|] eqn:E; [|discriminate].
    intros [= <-]. exists [], [], cap. auto.
  - destruct (k pre (c :: t) cap) as [x|] eqn:E.
    + intros [= <-]. exists [], (c :: t), cap. auto.
    + destruct (p c); [|discriminate].
      intros H. apply IH in H as (d & suf' & cap' & H1 & H2 & H3 & H4);
        [|simpl; now rewrite <- app_assoc | assumption].
      exists (d ++ [c]), suf', cap'. rewrite <- app_assoc. auto.
Qed.

Lemma run_reaches (r : regex) :
  forall pre suf cap k res,
    okPos pre suf -> okCap cap ->
    run r pre suf cap k = Some res ->
    reaches k pre cap res.
Proof.
  induction r as [ | p | p | p | p | a IHa b IHb | a IHa b IHb | | |
                   | a IHa | a IHa ];
    intros pre suf cap k res Hpos Hcap H.
  - exists [], suf, cap. auto.
  - simpl in H. destruct (litAt p suf pre) as [[pre' suf']|] eqn:L;
      [|discriminate].
    apply litAt_reads in L as (d & -> & ->).
    exists d, suf', cap. rewrite rev_app_distr, <- app_assoc. auto.
  - simpl in H. destruct suf as [|c t]; [discriminate|].
    destruct (p c); [|discriminate].
    exists [c], t, cap. simpl. rewrite <- app_assoc. auto.
  - now apply (starLoop_reaches p cap k suf).
  - now apply (lazyLoop_reaches p cap k suf).
  - simpl in H.
    apply IHa in H as (d & suf1 & cap1 & H1 & H2 & H3 & H4); auto.
    apply IHb in H4 as (e & suf2 & cap2 & H5 & H6 & H7 & H8); auto.
    exists (e ++ d), suf2, cap2. rewrite <- app_assoc.
    repeat split; auto.
    destruct H7 as [-> | H7]; [assumption | now right].
  - simpl in H. destruct (run a pre suf cap k) as [x|] eqn:E.
    + injection H as <-. now apply (IHa pre suf).
    + now apply (IHb pre suf).
  - simpl in H. destruct (atLineStart pre); [|discriminate].
    exists [], suf, cap. auto.
  - simpl in H. destruct (atLineEnd suf); [|discriminate].
    exists [], suf, cap. auto.
  - simpl in H. destruct suf; [|discriminate]. exists [], [], cap. auto.
  - simpl in H.
    apply IHa in H as (d & suf1 & cap1 & H1 & H2 & H3 & H4); auto.
    exists d, suf1, (Some (rev (firstn (length (d ++ pre) - length pre)
                                       (d ++ pre)))).
    repeat split; auto.
    + replace (length (d ++ pre) - length pre) with (length d)
        by (rewrite length_app; lia).
      rewrite firstn_exact.
      exists (rev pre), suf1. rewrite <- H1, rev_app_distr, <- app_assoc.
      reflexivity.
    + right. discriminate.
  - simpl in H.
    destruct (run a pre suf cap (fun _ _ c => Some c)) as [c|] eqn:E;
      [|discriminate].
    apply IHa in E as (d & suf1 & cap1 & H1 & H2 & H3 & H4); auto.
    injection H4 as ->.
    exists [], suf, c. auto.
Qed.

Lemma execFrom_capture (r : regex) :
  forall suf pre i x,
    okPos pre suf ->
    execFrom r pre suf = Some (i, Some x) -> partOf x text.
Proof.
  induction suf as [|a suf IH]; intros pre i x Hpos; simpl.
  - destruct (run r pre [] None accept) as [c|] eqn:R; [|discriminate].
    intros [= _ ->].
    apply run_reaches in R as (d & suf' & cap' & _ & H2 & _ & H4); auto.
    unfold accept in H4. injection H4 as ->. exact H2.
  - destruct (run r pre (a :: suf) None accept) as [c|] eqn:R.
    + intros [= _ ->].
      apply run_reaches in R as (d & suf' & cap' & _ & H2 & _ & H4); auto.
      unfold accept in H4. injection H4 as ->. exact H2.
    + apply IH. simpl. now rewrite <- app_assoc.
Qed.

End Captures.

(* ================================================================== *)
(** ** Trimming                                                        *)
(* ================================================================== *)

Section Trimming.

Lemma dropWhile_idempotent (p : N -> bool) (s : jsstring) :
  dropWhile p (dropWhile p s) = dropWhile p s.
Proof.
  induction s as [|a s IH]; simpl; [reflexivity|].
  destruct (p a) eqn:E; [assumption|]. simpl. now rewrite E.
Qed.

Lemma dropWhile_starts (p : N -> bool) (s : jsstring) :
  match dropWhile p s with [] => True | a :: _ => p a = false end.
Proof.
  induction s as [|a s IH]; simpl; [exact I|].
  destruct (p a) eqn:E; [assumption | exact E].
Qed.

Lemma dropWhile_suffix (p : N -> bool) (s : jsstring) :
  exists a, s = a ++ dropWhile p s.
Proof.
  induction s as [|c s (a & IH)]; simpl; [now exists []|].
  destruct (p c); [exists (c :: a); simpl; now rewrite <- IH | now exists []].
Qed.

Lemma dropWhile_snoc (p : N -> bool) (l : jsstring) (a : N) :
  p a = false -> dropWhile p (l ++ [a]) = dropWhile p l ++ [a].
Proof.
  intros Ha. induction l as [|c l IH]; simpl; [now rewrite Ha|].
  destruct (p c); [assumption | reflexivity].
Qed.

Lemma trimEnd_cons (a : N) (u : jsstring) :
  isSpace a = false -> trimEnd (a :: u) = a :: trimEnd u.
Proof.
  intros Ha. unfold trimEnd. simpl.
  rewrite dropWhile_snoc by assumption. now rewrite rev_app_distr.
Qed.

Lemma trimStart_trim (s : jsstring) : trimStart (trim s) = trim s.
Proof.
  unfold trim. change (trimStart s) with (dropWhile isSpace s).
  pose proof (dropWhile_starts isSpace s) as H.
  destruct (dropWhile isSpace s) as [|a u]; [reflexivity|].
  rewrite trimEnd_cons by assumption. unfold trimStart. simpl. now rewrite H.
Qed.

Lemma trimEnd_trim (s : jsstring) : trimEnd (trim s) = trim s.
Proof.
  unfold trim, trimEnd. now rewrite rev_involutive, dropWhile_idempotent.
Qed.

Lemma trim_partOf (s : jsstring) : partOf (trim s) s.
Proof.
  unfold trim, trimEnd, trimStart.
  destruct (dropWhile_suffix isSpace s) as (a & Ea).
  destruct (dropWhile_suffix isSpace (rev (dropWhile isSpace s))) as (b & Eb).
  exists a, (rev b). rewrite Ea at 1. f_equal.
  rewrite <- rev_app_distr, <- Eb. now rewrite rev_involutive.
Qed.

Lemma partOf_trans (x y z : jsstring) : partOf x y -> partOf y z -> partOf x z.
Proof.
  intros (l & r & ->) (l' & r' & ->).
  exists (l' ++ l), (r ++ r'). now rewrite <- !app_assoc.
Qed.

Lemma partOf_nil (s : jsstring) : partOf [] s.
Proof. now exists [], s. Qed.

Lemma sectionOf_trimmed_part (pattern : regex) (cvText : jsstring) :
  let sec := sectionOf pattern cvText in
  trimStart sec = sec /\ trimEnd sec = sec /\ partOf sec cvText.
Proof.
  cbv zeta. unfold sectionOf.
  destruct (exec pattern cvText) as [[i [x|]]|] eqn:E;
    try (repeat split; try reflexivity; apply partOf_nil).
  split; [apply trimStart_trim|]. split; [apply trimEnd_trim|].
  eapply partOf_trans; [apply trim_partOf|].
  unfold exec in E. now apply (execFrom_capture cvText) in E.
Qed.

End Trimming.

(** X12.  Every section [parseCVSections] returns is a contiguous part
    of the CV text, without white space at its ends (the empty section
    when the header is not found): the parser never invents or
    reorders text. *)
Theorem parsed_sections_are_trimmed_parts :
  forall cvText : jsstring,
    let p := parseCVSections cvText in
    Forall (fun sec => trimStart sec = sec /\ trimEnd sec = sec /\
                       partOf sec cvText)
           [summary p; experience p; skills p; education p; certifications p].
Proof.
  intros cvText p. subst p. unfold parseCVSections.
  destruct cvText as [|c t].
  - cbn. repeat constructor; apply partOf_nil.
  - cbn [summary experience skills education certifications].
    repeat constructor; apply sectionOf_trimmed_part.
Qed.

(* ================================================================== *)
(** ** The skills line                                                 *)
(* ================================================================== *)

Section SkillsLine.

Lemma includes_nil (s : jsstring) : includes s [] = true.
Proof. now destruct s. Qed.

Lemma includes_of_nil (t : jsstring) : includes [] t = true -> t = [].
Proof. destruct t; [reflexivity | discriminate]. Qed.

(** Every keyword is found, up to case, in the line consolidation
    returns (for ASCII text, where [toLowerCase] is the mapping of the
    language). *)
Lemma keyword_in_skills_line (skillsText : jsstring) (keywords : list jsstring) :
  isAscii skillsText = true ->
  forallb isAscii keywords = true ->
  Forall (fun kw =>
            includes (toLowerCase (formatSkillsSection skillsText keywords))
                     (toLowerCase kw) = true) keywords.
Proof.
  intros _ _. unfold formatSkillsSection, skillsSet.
  destruct (fold_addKeyword keywords (existingSkillsOf skillsText))
    as (added & -> & _ & _ & Hk).
  eapply Forall_impl; [|exact Hk]. cbv beta. intros kw Hin.
  apply in_map_iff in Hin as (e & <- & He).
  destruct (join_includes (str ", ") _ _ He) as (a & b & ->).
  apply includes_lower.
Qed.

Lemma fold_add_spec (l : list jsstring) :
  forall acc,
    NoDup acc ->
    NoDup (fold_left add l acc) /\ incl (fold_left add l acc) (acc ++ l).
Proof.
  induction l as [|x l IH]; intros acc Hnd; simpl.
  - rewrite app_nil_r. split; [assumption | apply incl_refl].
  - assert (Hnd' : NoDup (add acc x)).
    { unfold add. destruct (has acc x) eqn:E; [assumption|].
      apply has_false in E. apply NoDup_app; auto.
      - constructor; [easy | constructor].
      - intros y Hy [<- | []]. contradiction. }
    destruct (IH (add acc x) Hnd') as (H1 & H2). split; [assumption|].
    intros y Hy. apply H2 in Hy. apply in_app_or in Hy as [Hy | Hy].
    + unfold add in Hy. destruct (has acc x).
      * apply in_or_app. now left.
      * apply in_app_or in Hy as [Hy | [<- | []]]; apply in_or_app;
          [now left | right; now left].
    + apply in_or_app. right. now right.
Qed.

Lemma splitOn_chars (p : N -> bool) (Q : N -> Prop) (s : jsstring) :
  Forall Q s ->
  Forall (Forall (fun c => p c = false /\ Q c)) (splitOn p s).
Proof.
  induction s as [|a s IH]; intros Hs; simpl.
  - repeat constructor.
  - inversion Hs as [|? ? Ha Hs']; subst. specialize (IH Hs').
    destruct (p a) eqn:Pa.
    + constructor; [constructor | assumption].
    + destruct (splitOn p s) as [|w ws]; [repeat constructor; auto|].
      inversion IH; subst. constructor; [|assumption].
      constructor; auto.
Qed.

Lemma partOf_In (x s : jsstring) (c : N) : partOf x s -> In c x -> In c s.
Proof.
  intros (l & r & ->) H. apply in_or_app. right. apply in_or_app. now left.
Qed.

End SkillsLine.

(** X13.  For a skills text and keywords of ASCII characters, every
    keyword is found, up to case, in the skills line that consolidation
    returns. *)
Theorem skills_line_holds_every_keyword :
  forall (skillsText : jsstring) (keywords : list jsstring),
    isAscii skillsText = true ->
    forallb isAscii keywords = true ->
    Forall (fun kw =>
              includes (toLowerCase (formatSkillsSection skillsText keywords))
                       (toLowerCase kw) = true) keywords.
Proof.
  intros skillsText keywords Hs Hk.
  pose proof (keyword_in_skills_line skillsText keywords Hs Hk) as H.
  apply Forall_forall. intros kw Hkw.
  rewrite Forall_forall in H. now apply H.
Qed.

(** X13 at the skills line of the full resume and three keywords. *)
Lemma skills_line_holds_every_keyword_witness :
  Forall (fun kw =>
            includes (toLowerCase (formatSkillsSection
                                     (skills (parseCVSections fullResume))
                                     threeKeywords))
                     (toLowerCase kw) = true) threeKeywords.
Proof.
  apply (skills_line_holds_every_keyword
           (skills (parseCVSections fullResume)) threeKeywords);
    vm_compute; reflexivity.
Defined.

(** X14.  The skills read from the existing text are pairwise
    different, have 2 to 50 characters and hold no comma, no space, no
    line feed and no bullet glyph ([-], [*], U+2022): a skill of
    several words, or with a hyphen, is read as several skills. *)
Theorem existing_skills_are_single_words :
  forall skillsText : jsstring,
    NoDup (existingSkillsOf skillsText) /\
    Forall (fun s =>
              2 <= length s <= 50 /\
              Forall (fun c => isSkillSeparator c = false /\
                               isGlyph c = false) s)
           (existingSkillsOf skillsText).
Proof.
  intros skillsText. unfold existingSkillsOf.
  match goal with |- context [fold_left add ?l []] => set (words := l) end.
  destruct (fold_add_spec words [] (NoDup_nil _)) as (Hnd & Hin).
  split; [assumption|].
  apply Forall_forall. intros s Hs. apply Hin in Hs. simpl in Hs.
  unfold words in Hs. apply filter_In in Hs as (Hs & Hlen).
  apply andb_true_iff in Hlen as (H2 & H50).
  apply Nat.leb_le in H2, H50. split; [lia|].
  apply in_map_iff in Hs as (piece & <- & Hpiece).
  assert (Hp : Forall (Forall (fun c => isSkillSeparator c = false /\
                                        isGlyph c = false))
                      (splitOn isSkillSeparator (glyphsToCommas skillsText))).
  { apply splitOn_chars. unfold glyphsToCommas.
    apply Forall_forall. intros c Hc.
    apply in_map_iff in Hc as (d & <- & _).
    destruct (isGlyph d) eqn:E; [reflexivity | exact E]. }
  rewrite Forall_forall in Hp. specialize (Hp piece Hpiece).
  apply Forall_forall. intros c Hc. rewrite Forall_forall in Hp.
  apply Hp. eapply partOf_In; [apply trim_partOf | exact Hc].
Qed.

(* ================================================================== *)
(** ** The generated text and the file name                            *)
(* ================================================================== *)

Section GeneratedText.

Lemma underscoreRuns_no_space (s : jsstring) :
  forall inRun,
    forallb (fun c => negb (isSpace c)) (underscoreRuns inRun s) = true.
Proof.
  induction s as [|c t IH]; intros inRun; simpl; [reflexivity|].
  destruct (isSpace c) eqn:E.
  - destruct inRun; [apply IH|]. simpl. apply IH.
  - simpl. rewrite E. apply IH.
Qed.

Lemma endsWith_app (x p : jsstring) : endsWith (x ++ p) p = true.
Proof.
  unfold endsWith. rewrite rev_app_distr. apply startsWith_iff.
  now exists (rev x).
Qed.

Lemma orElse_nonempty (a b : jsstring) : b <> [] -> orElse a b <> [].
Proof. destruct a; [auto | discriminate]. Qed.

Lemma skills_in_text (contact : ContactSection) (sections : ParsedResume) :
  skills sections <> [] ->
  partOf (skills sections) (buildPDFText contact sections).
Proof.
  intros Hne. unfold buildPDFText.
  match goal with |- partOf _ (join NL ?l) =>
    assert (Hin : In (skills sections) l) end.
  { apply in_or_app. right.
    apply in_or_app. right. apply in_or_app. right.
    apply in_or_app. left.
    destruct (skills sections); [congruence|]. right. now left. }
  destruct (join_includes NL _ _ Hin) as (a & b & ->). now exists a, b.
Qed.

(** A part of an ASCII text is ASCII, and so is the skills section the
    parser returns. *)
Lemma isAscii_partOf (x s : jsstring) :
  partOf x s -> isAscii s = true -> isAscii x = true.
Proof.
  intros (l & r & ->). unfold isAscii. rewrite !forallb_app.
  intros H. apply andb_true_iff in H as (_ & H).
  now apply andb_true_iff in H as (H & _).
Qed.

Lemma parsed_skills_ascii (cvText : jsstring) :
  isAscii cvText = true -> isAscii (skills (parseCVSections cvText)) = true.
Proof.
  apply isAscii_partOf. unfold parseCVSections.
  destruct cvText as [|c t]; [apply partOf_nil|].
  cbn [skills]. apply sectionOf_trimmed_part.
Qed.

End GeneratedText.

(** X15.  The text generated for the PDF mentions every keyword: for
    candidate data, a CV and keywords of ASCII characters, each keyword
    handed to the formatter is found, up to case, in the text. *)
Theorem generated_text_holds_every_keyword :
  forall (candidateData : CandidateData) (tailoredCV : jsstring)
         (keywords : list jsstring),
    asciiCandidate candidateData = true ->
    isAscii tailoredCV = true ->
    forallb isAscii keywords = true ->
    Forall (fun kw =>
              includes (toLowerCase (generatedText candidateData tailoredCV
                                                   keywords))
                       (toLowerCase kw) = true) keywords.
Proof.
  intros candidateData cv keywords _ Hcv Hks. unfold generatedText.
  set (sections := formatCVForATS cv keywords).
  pose proof (keyword_in_skills_line
                (PDFATSTurbo.skills (parseCVSections cv)) keywords
                (parsed_skills_ascii cv Hcv) Hks) as H.
  change (formatSkillsSection _ keywords) with (skills sections) in H.
  eapply Forall_impl; [|exact H]. cbv beta. intros kw Hkw.
  destruct (skills sections) as [|c t] eqn:E.
  - apply includes_of_nil in Hkw. rewrite Hkw. apply includes_nil.
  - assert (P : partOf (skills sections)
                       (buildPDFText (buildContactSection candidateData)
                                     sections))
      by (apply skills_in_text; rewrite E; discriminate).
    destruct P as (a & b & ->).
    rewrite E, !toLowerCase_app. now apply includes_middle.
Qed.

(** X15 at the sample candidate, the full resume and three keywords. *)
Lemma generated_text_holds_every_keyword_witness :
  Forall (fun kw =>
            includes (toLowerCase (generatedText sampleCandidate fullResume
                                                 threeKeywords))
                     (toLowerCase kw) = true) threeKeywords.
Proof.
  apply (generated_text_holds_every_keyword
           sampleCandidate fullResume threeKeywords);
    vm_compute; reflexivity.
Defined.

(** X16.  The file name of the CV holds no white space and ends with
    [_CV.pdf], whatever the names of the candidate. *)
Theorem file_name_is_well_formed :
  forall candidateData : CandidateData,
    forallb (fun c => negb (isSpace c)) (cvFileName candidateData) = true /\
    endsWith (cvFileName candidateData) (str "_CV.pdf") = true.
Proof.
  intros cd. unfold cvFileName. cbv zeta.
  set (first := underscoreRuns false
                  (orElse (firstName cd)
                          (orElse (first_name cd) (str "Applicant")))).
  pose proof (underscoreRuns_no_space
                (orElse (lastName cd) (last_name cd)) false) as Hl.
  destruct (underscoreRuns false (orElse (lastName cd) (last_name cd)))
    as [|c l]; cbv iota.
  - split; [|apply endsWith_app].
    rewrite forallb_app. unfold first.
    now rewrite underscoreRuns_no_space.
  - split.
    + rewrite !forallb_app. unfold first.
      now rewrite underscoreRuns_no_space, Hl.
    + rewrite !app_assoc. apply endsWith_app.
Qed.

(** X17.  The contact line always ends with [ | open to relocation],
    after a non-empty front (the location falls back to
    [Open to relocation], so that a candidate without phone, e-mail,
    city and location gets the phrase twice); the links line is empty
    exactly when the three links are; and the name has no white space
    at its ends. *)
Theorem contact_section_shape :
  forall candidateData : CandidateData,
    let c := buildContactSection candidateData in
    (exists front,
        front <> [] /\
        contactLine c = front ++ str " | open to relocation") /\
    (linksLine c = [] <->
     linkedin candidateData = [] /\ github candidateData = [] /\
     portfolio candidateData = []) /\
    trimStart (name c) = name c /\ trimEnd (name c) = name c /\
    contactLine (buildContactSection
                   (mkCandidateData [] [] [] [] [] [] [] [] [] [] []))
      = str "Open to relocation | open to relocation".
Proof.
  intros cd c. subst c. unfold buildContactSection.
  cbn [name contactLine linksLine].
  split; [|split; [|split; [apply trimStart_trim
                           |split; [apply trimEnd_trim | reflexivity]]]].
  - assert (Hloc : orElse (city cd)
                          (orElse (location cd) (str "Open to relocation"))
                   <> [])
      by (apply orElse_nonempty, orElse_nonempty; discriminate).
    destruct (orElse (city cd) _) as [|l0 ls]; [congruence|].
    destruct (phone cd) as [|p0 ps], (email cd) as [|e0 es]; cbn.
    + exists (l0 :: ls). split; [discriminate | reflexivity].
    + exists ((e0 :: es) ++ str " | " ++ l0 :: ls).
      split; [discriminate | now rewrite <- !app_assoc].
    + exists ((p0 :: ps) ++ str " | " ++ l0 :: ls).
      split; [discriminate | now rewrite <- !app_assoc].
    + exists ((p0 :: ps) ++ str " | " ++ (e0 :: es) ++ str " | " ++ l0 :: ls).
      split; [discriminate | now rewrite <- !app_assoc].
  - destruct (linkedin cd), (github cd), (portfolio cd); cbn;
      split; intros H; try discriminate; try reflexivity; auto;
      destruct H as (H1 & H2 & H3); discriminate.
Qed.

(* ================================================================== *)
(** ** The lines of the experience section                             *)
(* ================================================================== *)

Section ExperienceLines.

Variable keywords : list jsstring.

(** Line by line: a line that is no bullet is returned as it is; a
    bullet is returned as a dash, two spaces and its content, with the
    clause of the keywords it gains. *)
Lemma formatLines_linewise (lines : list jsstring) :
  forall st,
    Forall2 (fun line out =>
               if isBullet (trim line) then
                 exists toAdd,
                   out = str "-  " ++ weave (stripGlyph (trim line)) toAdd /\
                   incl toAdd keywords /\ length toAdd <= 2
               else out = line)
            lines (map fst (formatLines keywords st lines)).
Proof.
  induction lines as [|line lines IH]; intros st; simpl; [constructor|].
  destruct (formatLine keywords st line) as [st' [out toAdd]] eqn:F.
  simpl. constructor; [|apply IH].
  pose proof (formatLine_spec keywords st line st' out toAdd F)
    as (Hlen & Hin & _).
  unfold formatLine in F.
  destruct (isBullet (trim line)); [|now injection F as _ <- _].
  destruct (_ && _) in F.
  - destruct (selectKeywords _ _ _ _ _) as [st1 toAdd1] in F.
    injection F as _ <- <-. now exists toAdd1.
  - injection F as _ <- <-. exists []. unfold weave. simpl.
    repeat split; auto using incl_nil_l.
Qed.

End ExperienceLines.

Section Normalisation.

Lemma formatLines_no_keywords (lines : list jsstring) :
  forall st, map fst (formatLines [] st lines) = map normalLine lines.
Proof.
  induction lines as [|line lines IH]; intros st; simpl; [reflexivity|].
  unfold formatLine, normalLine.
  destruct (isBullet (trim line)).
  - cbn [map filter length Nat.ltb Nat.leb andb maxKeywordsPerBullet].
    rewrite ?andb_false_r. cbn [map fst]. now rewrite IH.
  - cbn [map fst]. now rewrite IH.
Qed.

Lemma splitOn_app_sep (p : N -> bool) (x rest : jsstring) (c : N) :
  forallb (fun a => negb (p a)) x = true -> p c = true ->
  splitOn p (x ++ c :: rest) = x :: splitOn p rest.
Proof.
  intros Hx Hc. induction x as [|a x IH]; simpl.
  - now rewrite Hc.
  - simpl in Hx. apply andb_true_iff in Hx as (Ha & Hx).
    apply negb_true_iff in Ha. now rewrite Ha, IH.
Qed.

Lemma splitOn_join (ls : list jsstring) :
  ls <> [] ->
  Forall (fun l => forallb (fun a => negb (isNewline a)) l = true) ls ->
  splitOn isNewline (join NL ls) = ls.
Proof.
  induction ls as [|x ls IH]; [congruence|]. intros _ H.
  inversion H as [|? ? Hx Hls]; subst.
  destruct ls as [|y ls]; [now apply splitOn_single|].
  change (join NL (x :: y :: ls)) with (x ++ 10%N :: join NL (y :: ls)).
  rewrite splitOn_app_sep by (assumption || reflexivity).
  f_equal. apply IH; [discriminate | assumption].
Qed.

Lemma splitOn_no_separator (p : N -> bool) (s : jsstring) :
  Forall (fun l => forallb (fun a => negb (p a)) l = true) (splitOn p s).
Proof.
  pose proof (splitOn_chars p (fun _ => True) s) as H.
  eapply Forall_impl; [|apply H; apply Forall_forall; auto].
  intros l Hl. apply forallb_forall. intros a Ha.
  rewrite Forall_forall in Hl. destruct (Hl a Ha) as (E & _). now rewrite E.
Qed.

Lemma splitOn_nonempty (p : N -> bool) (s : jsstring) : splitOn p s <> [].
Proof.
  destruct s as [|a s]; simpl; [discriminate|].
  destruct (p a); [discriminate|]. now destruct (splitOn p s).
Qed.

Lemma stripGlyph_part (t : jsstring) : partOf (stripGlyph t) t.
Proof.
  destruct t as [|c t]; [apply partOf_nil|]. simpl.
  destruct (isGlyph c); [|exists [], []; simpl; now rewrite app_nil_r].
  destruct (dropWhile_suffix isSpace t) as (a & Ea).
  exists (c :: a), []. rewrite app_nil_r. simpl. now rewrite <- Ea.
Qed.

Lemma normalLine_no_newline (line : jsstring) :
  forallb (fun a => negb (isNewline a)) line = true ->
  forallb (fun a => negb (isNewline a)) (normalLine line) = true.
Proof.
  intros H. unfold normalLine.
  destruct (isBullet (trim line)); [|assumption].
  apply forallb_forall. intros a [<- | [<- | [<- | Ha]]]; try reflexivity.
  rewrite forallb_forall in H. apply H.
  eapply partOf_In; [apply trim_partOf|].
  eapply partOf_In; [apply stripGlyph_part | exact Ha].
Qed.

(** The end of a string without trailing white space has none. *)
Lemma trimEnd_suffix (a y : jsstring) :
  trimEnd (a ++ y) = a ++ y -> trimEnd y = y.
Proof.
  unfold trimEnd. intros H.
  apply (f_equal (@rev N)) in H. rewrite rev_involutive, rev_app_distr in H.
  destruct (rev y) as [|c r] eqn:E.
  - apply (f_equal (@rev N)) in E. rewrite rev_involutive in E. now subst y.
  - apply dropWhile_fixed in H. simpl. rewrite H.
    rewrite <- E. apply rev_involutive.
Qed.

Lemma trimEnd_app_nonempty (a y : jsstring) :
  y <> [] -> trimEnd y = y -> trimEnd (a ++ y) = a ++ y.
Proof.
  unfold trimEnd. intros Hy H.
  apply (f_equal (@rev N)) in H. rewrite rev_involutive in H.
  rewrite rev_app_distr.
  destruct (rev y) as [|c r] eqn:E.
  - apply (f_equal (@rev N)) in E. rewrite rev_involutive in E. now subst y.
  - apply dropWhile_fixed in H. rewrite dropWhile_head by assumption.
    rewrite <- E, <- rev_app_distr. apply rev_involutive.
Qed.

(** The content of a bullet has no white space at its ends. *)
Lemma bullet_content_trimmed (line : jsstring) :
  let content := stripGlyph (trim line) in
  trimStart content = content /\ trimEnd content = content.
Proof.
  cbv zeta. pose proof (trimEnd_trim line) as He.
  pose proof (trimStart_trim line) as Hs.
  destruct (trim line) as [|c t]; [now split|]. simpl.
  destruct (isGlyph c).
  - split; [apply dropWhile_idempotent|].
    destruct (dropWhile_suffix isSpace t) as (a & Ea).
    apply (trimEnd_suffix (c :: a)). simpl. now rewrite <- Ea.
  - now split.
Qed.

Lemma normalLine_idempotent (line : jsstring) :
  normalLine (normalLine line) = normalLine line.
Proof.
  unfold normalLine at 2 3.
  destruct (isBullet (trim line)) eqn:B.
  - destruct (bullet_content_trimmed line) as (Hs & He). cbv zeta in *.
    set (content := stripGlyph (trim line)) in *.
    unfold normalLine.
    destruct content as [|c0 cs] eqn:C.
    + reflexivity.
    + assert (T : trim (str "-  " ++ c0 :: cs) = str "-  " ++ c0 :: cs).
      { unfold trim.
        change (trimStart (str "-  " ++ c0 :: cs)) with (str "-  " ++ c0 :: cs).
        apply trimEnd_app_nonempty; [discriminate | assumption]. }
      rewrite T.
      change (isBullet (str "-  " ++ c0 :: cs)) with true. cbv iota.
      change (stripGlyph (str "-  " ++ c0 :: cs))
        with (dropWhile isSpace (c0 :: cs)).
      unfold trimStart in Hs. now rewrite Hs.
  - unfold normalLine. now rewrite B.
Qed.

End Normalisation.

Section ReturnedLines.

Local Abbreviation noLineFeed :=
  (fun s : jsstring => forallb (fun a => negb (isNewline a)) s = true).

Lemma noLineFeed_app (x y : jsstring) :
  noLineFeed x -> noLineFeed y -> noLineFeed (x ++ y).
Proof. intros Hx Hy. cbv beta. now rewrite forallb_app, Hx, Hy. Qed.

Lemma noLineFeed_part (x s : jsstring) :
  partOf x s -> noLineFeed s -> noLineFeed x.
Proof.
  intros (l & r & ->). cbv beta. rewrite !forallb_app.
  intros H. apply andb_true_iff in H as (_ & H).
  now apply andb_true_iff in H as (H & _).
Qed.

Lemma noLineFeed_removelast (s : jsstring) :
  noLineFeed s -> noLineFeed (removelast s).
Proof.
  cbv beta. induction s as [|a s IH]; [auto|]. intros H.
  cbn [forallb] in H. apply andb_true_iff in H as (Ha & Hs).
  cbn [removelast]. destruct s as [|b s]; [reflexivity|].
  cbn [forallb]. rewrite Ha. now apply IH.
Qed.

Lemma noLineFeed_join (sep : jsstring) (l : list jsstring) :
  noLineFeed sep -> Forall noLineFeed l -> noLineFeed (join sep l).
Proof.
  intros Hsep. induction 1 as [|x l Hx Hl IH]; [reflexivity|].
  destruct l as [|y l]; [exact Hx|].
  change (join sep (x :: y :: l)) with (x ++ sep ++ join sep (y :: l)).
  auto using noLineFeed_app.
Qed.

Lemma noLineFeed_weave (content : jsstring) (toAdd : list jsstring) :
  noLineFeed content -> Forall noLineFeed toAdd ->
  noLineFeed (weave content toAdd).
Proof.
  intros Hc Ht. unfold weave.
  destruct (0 <? length toAdd); [|exact Hc].
  destruct (endsWith content (str "."));
    repeat apply noLineFeed_app;
    auto using noLineFeed_removelast, noLineFeed_join.
Qed.

(** The lines returned hold no line feed when the keywords hold none. *)
Lemma formatLines_noLineFeed (keywords : list jsstring) (lines : list jsstring) :
  Forall noLineFeed keywords -> Forall noLineFeed lines ->
  forall st, Forall noLineFeed (map fst (formatLines keywords st lines)).
Proof.
  intros Hk Hl st.
  pose proof (formatLines_linewise keywords lines st) as H.
  revert Hl. induction H as [|line out lines outs Hline _ IH];
    intros Hl; [constructor|].
  inversion Hl as [|? ? Hx Hls]; subst. constructor; [|now apply IH].
  destruct (isBullet (trim line)); [|now subst out].
  destruct Hline as (toAdd & -> & Hin & _).
  apply (noLineFeed_app (str "-  ")); [reflexivity|].
  apply noLineFeed_weave.
  - eapply noLineFeed_part; [apply stripGlyph_part|].
    eapply noLineFeed_part; [apply trim_partOf | exact Hx].
  - apply Forall_forall. intros kw Hkw.
    rewrite Forall_forall in Hk. now apply Hk, Hin.
Qed.

End ReturnedLines.

(** X18.  For an experience text whose bullets have a content of ASCII
    characters, and keywords of ASCII characters, where no keyword
    holds a line feed, the text
    [formatExperienceWithKeywords] returns has as many lines as the
    text it was given, and line by line: a line that is no bullet comes
    out as it went in; a bullet comes out as a dash, two spaces and its
    content followed by the clause of at most 2 of the keywords. *)
Theorem experience_is_formatted_line_by_line :
  forall (experienceText : jsstring) (keywords : list jsstring),
    asciiBullets experienceText = true ->
    forallb isAscii keywords = true ->
    forallb (fun kw => forallb (fun a => negb (isNewline a)) kw) keywords
      = true ->
    let lines := splitOn isNewline experienceText in
    let outs :=
      splitOn isNewline
              (formatExperienceWithKeywords experienceText keywords) in
    length outs = length lines /\
    Forall2 (fun line out =>
               if isBullet (trim line) then
                 exists toAdd,
                   out = str "-  " ++ weave (stripGlyph (trim line)) toAdd /\
                   incl toAdd keywords /\ length toAdd <= 2
               else out = line)
            lines outs.
Proof.
  intros experienceText keywords _ _ Hk lines outs.
  assert (H : Forall2 (fun line out =>
               if isBullet (trim line) then
                 exists toAdd,
                   out = str "-  " ++ weave (stripGlyph (trim line)) toAdd /\
                   incl toAdd keywords /\ length toAdd <= 2
               else out = line) lines outs).
  { unfold outs, lines. destruct experienceText as [|c t].
    - cbn. constructor; [reflexivity | constructor].
    - cbn [formatExperienceWithKeywords]. unfold formattedLines.
      set (ls := splitOn isNewline (c :: t)).
      pose proof (formatLines_linewise keywords ls (mkInjectState 0 [])) as F.
      rewrite splitOn_join; [exact F| |].
      + intros E. rewrite E in F. inversion F as [E0|]; subst.
        symmetry in E0. now apply splitOn_nonempty in E0.
      + apply formatLines_noLineFeed; [|apply splitOn_no_separator].
        apply Forall_forall. intros kw Hkw.
        rewrite forallb_forall in Hk. now apply Hk. }
  split; [symmetry; eapply Forall2_length; exact H | exact H].
Qed.

(** X18 at an experience section with a heading and three bullets. *)
Lemma experience_is_formatted_line_by_line_witness :
  let lines := splitOn isNewline sampleExperience in
  let outs :=
    splitOn isNewline
            (formatExperienceWithKeywords sampleExperience threeKeywords) in
  length outs = length lines /\
  Forall2 (fun line out =>
             if isBullet (trim line) then
               exists toAdd,
                 out = str "-  " ++ weave (stripGlyph (trim line)) toAdd /\
                 incl toAdd threeKeywords /\ length toAdd <= 2
             else out = line)
          lines outs.
Proof.
  apply (experience_is_formatted_line_by_line sampleExperience threeKeywords);
    vm_compute; reflexivity.
Defined.

(** X19.  Without keywords, formatting the experience section is a
    normalisation of its bullets: formatting the result again changes
    nothing. *)
Theorem formatting_without_keywords_is_idempotent :
  forall experienceText : jsstring,
    formatExperienceWithKeywords
      (formatExperienceWithKeywords experienceText []) []
    = formatExperienceWithKeywords experienceText [].
Proof.
  intros experienceText.
  assert (F : forall t, t <> [] ->
                formatExperienceWithKeywords t [] =
                join NL (map normalLine (splitOn isNewline t))).
  { intros t Ht. destruct t as [|c t]; [congruence|].
    unfold formatExperienceWithKeywords, formattedLines.
    now rewrite formatLines_no_keywords. }
  destruct experienceText as [|c t]; [reflexivity|].
  rewrite (F (c :: t)) by discriminate.
  set (ls := splitOn isNewline (c :: t)).
  destruct (join NL (map normalLine ls)) as [|d out] eqn:E; [reflexivity|].
  rewrite F by discriminate. rewrite <- E.
  rewrite splitOn_join.
  - rewrite map_map. f_equal. apply map_ext. intros l.
    apply normalLine_idempotent.
  - intros Hnil. apply map_eq_nil in Hnil.
    now apply (splitOn_nonempty isNewline (c :: t)).
  - apply Forall_forall. intros l Hl.
    apply in_map_iff in Hl as (l0 & <- & Hl0).
    apply normalLine_no_newline.
    pose proof (splitOn_no_separator isNewline (c :: t)) as H.
    rewrite Forall_forall in H. now apply H.
Qed.

(* ================================================================== *)
(** ** The keywords a pass injects are in its text                     *)
(* ================================================================== *)

Section InjectedText.

Variable keywords : list jsstring.

Lemma weave_holds (content : jsstring) (toAdd : list jsstring) :
  Forall (fun kw => partOf kw (str "-  " ++ weave content toAdd)) toAdd.
Proof.
  apply Forall_forall. intros kw Hkw. unfold weave.
  destruct toAdd as [|k0 ks]; [contradiction|].
  change (0 <? length (k0 :: ks)) with true. cbv iota.
  destruct (join_includes (str " and ") kw (k0 :: ks) Hkw) as (a & b & ->).
  destruct (endsWith content (str ".")).
  - exists (str "-  " ++ removelast content ++ str ", leveraging " ++ a),
           (b ++ str ".").
    now rewrite <- !app_assoc.
  - exists (str "-  " ++ content ++ str " utilizing " ++ a), b.
    now rewrite <- !app_assoc.
Qed.

Lemma formatLine_holds st line st' out toAdd :
  formatLine keywords st line = (st', (out, toAdd)) ->
  Forall (fun kw => partOf kw out) toAdd.
Proof.
  unfold formatLine.
  destruct (isBullet (trim line)); [|intros [= _ _ <-]; constructor].
  destruct (_ && _); [|intros [= _ _ <-]; constructor].
  destruct (selectKeywords _ _ _ _ _) as [st1 toAdd1].
  intros [= _ <- <-]. apply weave_holds.
Qed.

Lemma formatLines_hold (lines : list jsstring) :
  forall st,
    Forall (fun o => Forall (fun kw => partOf kw (fst o)) (snd o))
           (formatLines keywords st lines).
Proof.
  induction lines as [|line lines IH]; intros st; simpl; [constructor|].
  destruct (formatLine keywords st line) as [st' [out toAdd]] eqn:F.
  constructor; [|apply IH]. simpl. now apply formatLine_holds in F.
Qed.

End InjectedText.

(** X20.  Every keyword that a pass of experience injection pushes on a
    bullet occurs, as it was given, in the text the pass returns. *)
Theorem injected_keywords_are_in_the_experience :
  forall (experienceText : jsstring) (keywords : list jsstring),
    Forall (fun kw =>
              partOf kw (formatExperienceWithKeywords experienceText keywords))
           (concat (injections experienceText keywords)).
Proof.
  intros experienceText keywords. apply Forall_forall. intros kw Hkw.
  unfold injections, formatExperienceWithKeywords in *.
  destruct experienceText as [|c t]; [contradiction|].
  apply in_concat in Hkw as (toAdd & Hadd & Hkw).
  apply in_map_iff in Hadd as ([out toAdd'] & E & Ho). simpl in E. subst toAdd'.
  pose proof (formatLines_hold keywords (splitOn isNewline (c :: t))
                               (mkInjectState 0 [])) as H.
  rewrite Forall_forall in H. specialize (H _ Ho). simpl in H.
  rewrite Forall_forall in H. specialize (H kw Hkw).
  eapply partOf_trans; [exact H|].
  assert (Hin : In out (map fst (formattedLines (c :: t) keywords)))
    by (apply in_map_iff; now exists (out, toAdd)).
  destruct (join_includes NL _ _ Hin) as (a & b & ->). now exists a, b.
Qed.

(* ================================================================== *)
(** ** Finding the skills header                                       *)
(* ================================================================== *)

Section HeaderDetection.

Lemma litAt_ignores_case (p : jsstring) :
  forall h rest acc,
    map toUpperUnit h = map toUpperUnit p ->
    litAt p (h ++ rest) acc = Some (rev h ++ acc, rest).
Proof.
  induction p as [|b p IH]; intros [|a h] rest acc E; try discriminate.
  - now destruct rest.
  - simpl in E. injection E as Ea Eh. simpl.
    rewrite Ea, N.eqb_refl, IH by assumption.
    now rewrite <- app_assoc.
Qed.

Lemma starLoop_succeeds p cap (k : cont) pre suf :
  k pre suf cap <> None -> starLoop p cap k pre suf <> None.
Proof.
  intros H. destruct suf as [|c t]; simpl; [assumption|].
  destruct (p c); [|assumption].
  now destruct (starLoop p cap k (c :: pre) t).
Qed.

(** The search of [exec] stops at the first position with a match. *)
Lemma execFrom_finds (r : regex) :
  forall a pre b,
    run r (rev a ++ pre) b None accept <> None ->
    exists i cap, execFrom r pre (a ++ b) = Some (i, cap) /\
                  i <= length pre + length a.
Proof.
  induction a as [|x a IH]; intros pre b H; simpl in *.
  - destruct b as [|y b]; simpl;
      destruct (run r pre _ None accept) as [c|]; try congruence;
      exists (length pre), c; split; auto; lia.
  - destruct (run r pre (x :: a ++ b) None accept) as [c|].
    + exists (length pre), c. split; [reflexivity | lia].
    + rewrite <- app_assoc in H. destruct (IH (x :: pre) b H) as (i & cap & E & Hi).
      exists i, cap. split; [assumption | simpl in Hi; lia].
Qed.

Lemma run_seq a b pre suf cap k :
  run (Seq a b) pre suf cap k
  = run a pre suf cap (fun pre' suf' cap' => run b pre' suf' cap' k).
Proof. reflexivity. Qed.

Lemma run_alt_left a b pre suf cap k :
  run a pre suf cap k <> None -> run (Alt a b) pre suf cap k <> None.
Proof. simpl. now destruct (run a pre suf cap k). Qed.

Lemma run_group a pre suf cap k :
  run (Group a) pre suf cap k
  = run a pre suf cap
        (fun pre' suf' _ =>
           k pre' suf' (Some (rev (firstn (length pre' - length pre) pre')))).
Proof. reflexivity. Qed.

Lemma run_lit p pre suf cap k :
  run (Lit p) pre suf cap k
  = match litAt p suf pre with
    | Some (pre', suf') => k pre' suf' cap
    | None => None
    end.
Proof. reflexivity. Qed.

Lemma run_star p pre suf cap k :
  run (Star p) pre suf cap k = starLoop p cap k pre suf.
Proof. reflexivity. Qed.

Lemma run_bol pre suf cap k :
  run Bol pre suf cap k = if atLineStart pre then k pre suf cap else None.
Proof. reflexivity. Qed.

Lemma run_eol pre suf cap k :
  run Eol pre suf cap k = if atLineEnd suf then k pre suf cap else None.
Proof. reflexivity. Qed.

End HeaderDetection.

(** X21.  A CV in which the word [SKILLS], in any letter case, stands
    alone on a line has a skills header for the fallback: the search
    succeeds, at that line or at an earlier header line. *)
Theorem skills_line_is_recognised :
  forall (before header after : jsstring),
    map toUpperUnit header = str "SKILLS" ->
    atLineStart (rev before) = true ->
    atLineEnd after = true ->
    exists index cap,
      exec skillsHeader (before ++ header ++ after) = Some (index, cap) /\
      index <= length before.
Proof.
  intros before header after Hh Hs He.
  destruct (execFrom_finds skillsHeader before [] (header ++ after))
    as (i & cap & E & Hi).
  - rewrite app_nil_r. unfold skillsHeader.
    rewrite run_seq, run_bol, Hs, run_seq, run_group.
    apply run_alt_left. rewrite run_lit.
    rewrite (litAt_ignores_case (str "SKILLS") header after (rev before))
      by exact Hh.
    rewrite run_seq, run_star. apply starLoop_succeeds.
    rewrite run_eol, He. discriminate.
  - exists i, cap. split; [exact E | simpl in Hi; lia].
Qed.

(** X21 at a CV of three lines with the header in lower case. *)
Lemma skills_line_is_recognised_witness :
  exists index cap,
    exec skillsHeader
         ((str "Jane Doe" ++ NL) ++ str "skills" ++ (NL ++ str "Java"))
      = Some (index, cap) /\
    index <= length (str "Jane Doe" ++ NL).
Proof.
  apply (skills_line_is_recognised
           (str "Jane Doe" ++ NL) (str "skills") (NL ++ str "Java"));
    reflexivity.
Defined.

(* ================================================================== *)
(** ** A section needs two line feeds                                  *)
(* ================================================================== *)

Section TwoLineFeeds.

Lemma run_cls p pre suf cap k :
  run (Cls p) pre suf cap k
  = match suf with
    | c :: t => if p c then k (c :: pre) t cap else None
    | [] => None
    end.
Proof. reflexivity. Qed.

Lemma run_look a pre suf cap k :
  run (Look a) pre suf cap k
  = match run a pre suf cap (fun _ _ c => Some c) with
    | Some c => k pre suf c
    | None => None
    end.
Proof. reflexivity. Qed.

(** A match of [header [\s:]*\n (body) (?=\n tail)] reads a line feed
    and sees another one further on. *)
Lemma section_pattern_reads_two (hd tail : regex) (cvText : jsstring) :
  exec (hd ;; colons ;; nl ;; body ;; Look (nl ;; tail))%re cvText <> None ->
  2 <= count_occ N.eq_dec cvText 10%N.
Proof.
  destruct (exec _ cvText) as [[i cap]|] eqn:E; [intros _ | congruence].
  apply exec_position in E as (pre & suf & Et & _ & H).
  symmetry in Et.
  rewrite run_seq in H.
  apply (run_reaches cvText) in H
    as (d1 & s1 & c1 & P1 & C1 & _ & H); [|assumption | exact I].
  cbv beta in H. rewrite run_seq in H.
  apply (run_reaches cvText) in H
    as (d2 & s2 & c2 & P2 & C2 & _ & H); [|assumption | assumption].
  cbv beta in H. rewrite run_seq in H. unfold nl at 1 in H.
  rewrite run_cls in H.
  destruct s2 as [|x t2]; [discriminate|].
  destruct (x =? 10)%N eqn:Ex; [|discriminate].
  apply N.eqb_eq in Ex. subst x.
  rewrite run_seq in H.
  apply (run_reaches cvText) in H
    as (d3 & s3 & c3 & P3 & C3 & _ & H);
    [|simpl; now rewrite <- app_assoc | assumption].
  cbv beta in H. rewrite run_look in H.
  destruct (run (nl ;; tail)%re _ s3 c3 _) as [c4|] eqn:L; [|discriminate].
  rewrite run_seq in L. unfold nl at 1 in L. rewrite run_cls in L.
  destruct s3 as [|y t3]; [discriminate|].
  destruct (y =? 10)%N eqn:Ey; [|discriminate].
  apply N.eqb_eq in Ey. subst y.
  rewrite <- P3, rev_app_distr. simpl.
  rewrite !count_occ_app. simpl.
  destruct (N.eq_dec 10 10); [lia | congruence].
Qed.

Lemma sectionOf_needs_two (hd tail : regex) (cvText : jsstring) :
  count_occ N.eq_dec cvText 10%N < 2 ->
  sectionOf (hd ;; colons ;; nl ;; body ;; Look (nl ;; tail))%re cvText = [].
Proof.
  intros Hc. unfold sectionOf.
  destruct (exec _ cvText) as [[i [x|]]|] eqn:E; try reflexivity.
  exfalso. pose proof (section_pattern_reads_two hd tail cvText) as H.
  rewrite E in H. specialize (H ltac:(discriminate)). lia.
Qed.

End TwoLineFeeds.

(** X22.  A CV with fewer than two line feeds has no summary, no
    experience, no skills and no education for the parser: the pattern
    of a section reads the line feed after its header and requires
    another one after its body, so a section that ends the text without
    a final line feed is not read. *)
Theorem sections_need_two_line_feeds :
  forall cvText : jsstring,
    count_occ N.eq_dec cvText 10%N < 2 ->
    let p := parseCVSections cvText in
    summary p = [] /\ experience p = [] /\ skills p = [] /\ education p = [].
Proof.
  intros cvText Hc p. subst p. unfold parseCVSections.
  destruct cvText as [|c t]; [now repeat split|].
  cbn [summary experience skills education].
  repeat split; now apply sectionOf_needs_two.
Qed.

(** X22 at the resume of the skills scenario, which has one line feed. *)
Lemma sections_need_two_line_feeds_witness :
  let p := parseCVSections skillsCV in
  summary p = [] /\ experience p = [] /\ skills p = [] /\ education p = [].
Proof.
  apply (sections_need_two_line_feeds skillsCV).
  apply Nat.ltb_lt. vm_compute. reflexivity.
Defined.

(* ================================================================== *)
(** ** The pipeline and the document at work                           *)
(* ================================================================== *)

Section MoreRuns.

Example file_name_of_sample :
  cvFileName sampleCandidate = str "Mary_Ann_van_Dyke_CV.pdf".
Proof. vm_compute. reflexivity. Qed.

Example contact_of_sample :
  buildContactSection sampleCandidate =
  {| name := str "Mary Ann van  Dyke";
     contactLine := str "555 | Oslo | open to relocation";
     linksLine := str "in/mary | mary.dev" |}.
Proof. vm_compute. reflexivity. Qed.

Example text_of_sample :
  generatedText sampleCandidate fullResume threeKeywords =
  str "MARY ANN VAN  DYKE" ++ NL ++
  str "555 | Oslo | open to relocation" ++ NL ++
  str "in/mary | mary.dev" ++ NL ++ NL ++
  str "PROFESSIONAL SUMMARY" ++ NL ++ str "Data engineer." ++ NL ++ NL ++
  str "EXPERIENCE" ++ NL ++ str "Acme | 2020" ++ NL ++
  str "-  Built data pipelines, leveraging Spark and Kafka." ++ NL ++
  str "-  Led a team utilizing Python" ++ NL ++
  str "-  Tuned queries." ++ NL ++ NL ++
  str "SKILLS" ++ NL ++ str "Java, SQL, Spark, Kafka, Python" ++ NL ++ NL ++
  str "EDUCATION" ++ NL ++ str "BSc" ++ NL.
Proof. vm_compute. reflexivity. Qed.

Example pipeline_on_skills_scenario :
  snd (executeTurboPipeline NoExtractor NoTailorer [] skillsJobText skillsCV) =
  PipelineSuccess
    (ultraFastExtraction skillsJobText 35)
    {| outTailoredCV :=
         str "SKILLS" ++ NL ++ NL ++ str "python, aws, docker, kubernetes" ++
         NL ++ str "Java, SQL";
       outInjectedKeywords :=
         map str ["python"; "aws"; "docker"; "kubernetes"]%string;
       outStatsTotal := Some 4 |}.
Proof. vm_compute. reflexivity. Qed.

End MoreRuns.
